(** * backend/transcribe.py: a command-line wrapper around a speech model

    The script parses its command line with [argparse], checks that the
    audio file exists, loads a Whisper model, transcribes the file and
    reports the outcome as one line of JSON: the text on stdout, or an
    error message on stderr together with exit code 1.

    The development follows the script top-down:
    - Python strings and the fragment of Python values the script handles;
    - [json.dumps] as the script uses it, and a JSON reader to state what
      "valid, parseable JSON" means;
    - the command-line parser built by the two [add_argument] calls;
    - the process: output streams, exceptions, [sys.exit], and the calls
      made to the file system and to the model;
    - [transcribe_audio] and the [__main__] block;
    - the properties of the specification. *)

From Stdlib Require Import Ascii String.
From Stdlib Require Import List NArith ZArith Bool Lia Arith.
Import ListNotations.
Set Warnings "-register-all".
Local Open Scope N_scope.

(** ** Python strings *)

(** A Python [str] is a sequence of code points. *)
Definition pystr := list N.

(** ASCII literals of the source. *)
Definition lit (s : string) : pystr := map N_of_ascii (list_ascii_of_string s).

Fixpoint pystr_eqb (a b : pystr) : bool :=
  match a, b with
  | [], [] => true
  | x :: a', y :: b' => (x =? y) && pystr_eqb a' b'
  | _, _ => false
  end.

(** [sep.join(parts)] *)
Fixpoint join (sep : pystr) (parts : list pystr) : pystr :=
  match parts with
  | [] => []
  | [p] => p
  | p :: ps => p ++ sep ++ join sep ps
  end.

(** [s.startswith(prefix)] *)
Fixpoint startswith (s prefix : pystr) {struct prefix} : bool :=
  match prefix, s with
  | [], _ => true
  | p :: prefix', c :: s' => (c =? p) && startswith s' prefix'
  | _ :: _, [] => false
  end.

Definition QUOTE : N := 34.      (* the double quote *)
Definition BACKSLASH : N := 92.

(** ** Python values and exceptions *)

(** The values the script passes around, as far as this development goes:
    [None], strings, lists, dicts with string keys (in insertion order),
    and objects of a class [json.dumps] has no encoding for (a tensor, an
    array), of which only the class name matters.  Numbers, booleans and
    tuples, which [json.dumps] does encode, are not part of this fragment:
    nothing below speaks about them. *)
Inductive pyvalue : Type :=
| PyNone
| PyStr (s : pystr)
| PyList (items : list pyvalue)
| PyDict (entries : list (pystr * pyvalue))
| PyOpaque (class_name : pystr).

(** An instance of [Exception], the class an [except Exception] clause
    catches: its class name and what [str(e)] returns.  ([SystemExit] is
    not one; it is the [Exited] outcome of a statement below.) *)
Record PyException : Type := mkException {
  exc_class : pystr;
  exc_str : pystr
}.

(** The outcome of a call that returns or raises. *)
Inductive result (A : Type) : Type :=
| Return (a : A)
| Raise (e : PyException).
Arguments Return {A} a.
Arguments Raise {A} e.

(** Induction on values, with the hypothesis for every item of a list and
    every value of a dict. *)
Section pyvalue_induction.
Variable P : pyvalue -> Prop.
Hypothesis HNone : P PyNone.
Hypothesis HStr : forall s, P (PyStr s).
Hypothesis HList : forall items, Forall P items -> P (PyList items).
Hypothesis HDict :
  forall entries, Forall (fun kv => P (snd kv)) entries -> P (PyDict entries).
Hypothesis HOpaque : forall c, P (PyOpaque c).

Fixpoint pyvalue_nested_ind (o : pyvalue) : P o :=
  match o with
  | PyNone => HNone
  | PyStr s => HStr s
  | PyList items =>
      HList items
        ((fix all (xs : list pyvalue) : Forall P xs :=
            match xs with
            | [] => Forall_nil _
            | x :: xs' => Forall_cons x (pyvalue_nested_ind x) (all xs')
            end) items)
  | PyDict entries =>
      HDict entries
        ((fix all (kvs : list (pystr * pyvalue))
            : Forall (fun kv => P (snd kv)) kvs :=
            match kvs with
            | [] => Forall_nil _
            | kv :: kvs' =>
                Forall_cons kv (pyvalue_nested_ind (snd kv)) (all kvs')
            end) entries)
  | PyOpaque c => HOpaque c
  end.
End pyvalue_induction.

(** ** json.dumps *)

Definition hex_digit (d : N) : N :=
  if d <? 10 then 48 + d else 87 + d.   (* '0'..'9', 'a'..'f' *)

Fixpoint hex_digits (fuel : nat) (n : N) (acc : pystr) : pystr :=
  match fuel with
  | O => acc
  | S fuel' =>
      if n =? 0 then acc
      else hex_digits fuel' (n / 16) (hex_digit (n mod 16) :: acc)
  end.

(** ['{0:04x}'.format(n)]: lower-case hexadecimal, at least four digits. *)
Definition format_04x (n : N) : pystr :=
  let ds := hex_digits (N.size_nat n) n [] in
  repeat 48 (4 - length ds)%nat ++ ds.

(** [ESCAPE_DCT] of json.encoder: the short escapes, and [\u00XX] for the
    other control characters. *)
Definition ESCAPE_DCT (c : N) : option pystr :=
  if c =? 92 then Some [92; 92]
  else if c =? 34 then Some [92; 34]
  else if c =? 8 then Some (lit "\b")
  else if c =? 12 then Some (lit "\f")
  else if c =? 10 then Some (lit "\n")
  else if c =? 13 then Some (lit "\r")
  else if c =? 9 then Some (lit "\t")
  else if c <? 32 then Some (lit "\u" ++ format_04x c)
  else None.

(** [ESCAPE_ASCII]: a backslash, a quote, or anything outside [' '..'~']. *)
Definition ESCAPE_ASCII (c : N) : bool :=
  (c =? 92) || (c =? 34) || negb ((32 <=? c) && (c <=? 126)).

(** The [replace] callback of [py_encode_basestring_ascii]. *)
Definition replace (c : N) : pystr :=
  match ESCAPE_DCT c with
  | Some esc => esc
  | None =>
      if c <? 0x10000 then lit "\u" ++ format_04x c
      else
        let n := c - 0x10000 in
        let s1 := N.lor 0xd800 (N.land (N.shiftr n 10) 0x3ff) in
        let s2 := N.lor 0xdc00 (N.land n 0x3ff) in
        lit "\u" ++ format_04x s1 ++ lit "\u" ++ format_04x s2
  end.

Definition escape_char (c : N) : pystr :=
  if ESCAPE_ASCII c then replace c else [c].

Definition encode_basestring_ascii (s : pystr) : pystr :=
  QUOTE :: flat_map escape_char s ++ [QUOTE].

Definition not_serializable (class_name : pystr) : PyException :=
  mkException (lit "TypeError")
    (lit "Object of type " ++ class_name ++ lit " is not JSON serializable").

(** [json.dumps(o)] with the default separators [', '] and [': '] and
    [ensure_ascii=True]. *)
Fixpoint json_dumps (o : pyvalue) : result pystr :=
  match o with
  | PyNone => Return (lit "null")
  | PyStr s => Return (encode_basestring_ascii s)
  | PyList items =>
      let fix chunks (xs : list pyvalue) : result (list pystr) :=
        match xs with
        | [] => Return []
        | x :: xs' =>
            match json_dumps x with
            | Raise e => Raise e
            | Return c =>
                match chunks xs' with
                | Raise e => Raise e
                | Return cs => Return (c :: cs)
                end
            end
        end in
      match chunks items with
      | Raise e => Raise e
      | Return cs => Return (lit "[" ++ join (lit ", ") cs ++ lit "]")
      end
  | PyDict entries =>
      let fix chunks (kvs : list (pystr * pyvalue)) : result (list pystr) :=
        match kvs with
        | [] => Return []
        | (k, v) :: kvs' =>
            match json_dumps v with
            | Raise e => Raise e
            | Return c =>
                match chunks kvs' with
                | Raise e => Raise e
                | Return cs =>
                    Return ((encode_basestring_ascii k ++ lit ": " ++ c) :: cs)
                end
            end
        end in
      match chunks entries with
      | Raise e => Raise e
      | Return cs => Return (lit "{" ++ join (lit ", ") cs ++ lit "}")
      end
  | PyOpaque cls => Raise (not_serializable cls)
  end.

(** The two local loops of [json_dumps], by name. *)
Fixpoint dumps_items (xs : list pyvalue) : result (list pystr) :=
  match xs with
  | [] => Return []
  | x :: xs' =>
      match json_dumps x with
      | Raise e => Raise e
      | Return c =>
          match dumps_items xs' with
          | Raise e => Raise e
          | Return cs => Return (c :: cs)
          end
      end
  end.

Fixpoint dumps_entries (kvs : list (pystr * pyvalue)) : result (list pystr) :=
  match kvs with
  | [] => Return []
  | (k, v) :: kvs' =>
      match json_dumps v with
      | Raise e => Raise e
      | Return c =>
          match dumps_entries kvs' with
          | Raise e => Raise e
          | Return cs =>
              Return ((encode_basestring_ascii k ++ lit ": " ++ c) :: cs)
          end
      end
  end.

(** ** Reading JSON

    What it means for a text to be valid JSON (RFC 8259): a reader that
    returns the value a text denotes, or [None] when the text is not JSON.
    A number keeps its lexeme. *)
Inductive json : Type :=
| JNull
| JBool (b : bool)
| JNumber (lexeme : pystr)
| JString (s : pystr)
| JArray (items : list json)
| JObject (members : list (pystr * json)).

Definition is_ws (c : N) : bool :=
  (c =? 32) || (c =? 9) || (c =? 10) || (c =? 13).

Fixpoint skip_ws (cs : pystr) : pystr :=
  match cs with
  | c :: cs' => if is_ws c then skip_ws cs' else cs
  | [] => []
  end.

Definition hex_value (c : N) : option N :=
  if (48 <=? c) && (c <=? 57) then Some (c - 48)
  else if (97 <=? c) && (c <=? 102) then Some (c - 87)
  else if (65 <=? c) && (c <=? 70) then Some (c - 55)
  else None.

(** The four hexadecimal digits after [\u]. *)
Definition decode_uXXXX (cs : pystr) : option (N * pystr) :=
  match cs with
  | a :: b :: c :: d :: rest =>
      match hex_value a, hex_value b, hex_value c, hex_value d with
      | Some x, Some y, Some z, Some w =>
          Some (x * 4096 + y * 256 + z * 16 + w, rest)
      | _, _, _, _ => None
      end
  | _ => None
  end.

Definition is_high_surrogate (u : N) : bool := (0xd800 <=? u) && (u <=? 0xdbff).
Definition is_low_surrogate (u : N) : bool := (0xdc00 <=? u) && (u <=? 0xdfff).

Definition join_surrogates (hi lo : N) : N :=
  0x10000 + N.lor (N.shiftl (hi - 0xd800) 10) (lo - 0xdc00).

(** The one-letter escapes. *)
Definition unescape (c : N) : option N :=
  if c =? 34 then Some 34          (* quote *)
  else if c =? 92 then Some 92     (* backslash *)
  else if c =? 47 then Some 47     (* slash *)
  else if c =? 98 then Some 8      (* b *)
  else if c =? 102 then Some 12    (* f *)
  else if c =? 110 then Some 10    (* n *)
  else if c =? 114 then Some 13    (* r *)
  else if c =? 116 then Some 9     (* t *)
  else None.

(** The characters of a string after its opening quote, up to the closing
    one; [acc] holds the decoded characters, last first.  An escaped high
    surrogate directly followed by an escaped low surrogate denotes one
    supplementary character. *)
Fixpoint scanstring (fuel : nat) (cs acc : pystr) : option (pystr * pystr) :=
  match fuel with
  | O => None
  | S fuel' =>
      match cs with
      | [] => None
      | c :: r =>
          if c =? QUOTE then Some (rev acc, r)
          else if c =? BACKSLASH then
            match r with
            | [] => None
            | e :: r' =>
                if e =? 117 then
                  match decode_uXXXX r' with
                  | None => None
                  | Some (uni, r'') =>
                      let single := scanstring fuel' r'' (uni :: acc) in
                      if is_high_surrogate uni then
                        match r'' with
                        | b :: r2 =>
                            if b =? BACKSLASH then
                              match r2 with
                              | u :: r3 =>
                                  if u =? 117 then
                                    match decode_uXXXX r3 with
                                    | None => None
                                    | Some (uni2, r4) =>
                                        if is_low_surrogate uni2
                                        then scanstring fuel' r4
                                               (join_surrogates uni uni2 :: acc)
                                        else single
                                    end
                                  else single
                              | [] => single
                              end
                            else single
                        | [] => single
                        end
                      else single
                  end
                else
                  match unescape e with
                  | Some ch => scanstring fuel' r' (ch :: acc)
                  | None => None
                  end
            end
          else if c <? 32 then None
          else scanstring fuel' r (c :: acc)
      end
  end.

Definition is_digit (c : N) : bool := (48 <=? c) && (c <=? 57).

Fixpoint take_digits (cs : pystr) : pystr * pystr :=
  match cs with
  | c :: cs' =>
      if is_digit c then let (ds, r) := take_digits cs' in (c :: ds, r)
      else ([], cs)
  | [] => ([], [])
  end.

(** A number: an optional minus sign; a zero, or a non-zero digit and more
    digits; optionally a point and digits; optionally an exponent. *)
Definition scan_number (cs : pystr) : option (pystr * pystr) :=
  let (sign, r0) :=
    match cs with
    | 45 :: r => ([45], r)
    | _ => ([], cs)
    end in
  let int_part :=
    match r0 with
    | d :: r =>
        if d =? 48 then Some ([48], r)
        else if is_digit d then let (ds, r') := take_digits r in Some (d :: ds, r')
        else None
    | [] => None
    end in
  match int_part with
  | None => None
  | Some (int, r1) =>
      let (frac, r2) :=
        match r1 with
        | 46 :: r =>
            match take_digits r with
            | ([], _) => ([], r1)
            | (ds, r') => (46 :: ds, r')
            end
        | _ => ([], r1)
        end in
      let (exp, r3) :=
        match r2 with
        | e :: r =>
            if (e =? 101) || (e =? 69) then
              let (sg, r') :=
                match r with
                | s :: r'' => if (s =? 43) || (s =? 45) then ([s], r'') else ([], r)
                | [] => ([], r)
                end in
              match take_digits r' with
              | ([], _) => ([], r2)
              | (ds, r'') => (e :: sg ++ ds, r'')
              end
            else ([], r2)
        | [] => ([], r2)
        end in
      Some (sign ++ int ++ frac ++ exp, r3)
  end.

(** A value, the elements of an array after its bracket, and the members
    of an object after its brace. *)
Fixpoint parse_value (fuel : nat) (cs : pystr) : option (json * pystr) :=
  match fuel with
  | O => None
  | S fuel' =>
      match cs with
      | 34 :: r =>
          match scanstring (length r) r [] with
          | Some (s, r') => Some (JString s, r')
          | None => None
          end
      | 123 :: r =>
          match skip_ws r with
          | 125 :: r' => Some (JObject [], r')
          | r' =>
              match parse_members fuel' r' with
              | Some (ms, r'') => Some (JObject ms, r'')
              | None => None
              end
          end
      | 91 :: r =>
          match skip_ws r with
          | 93 :: r' => Some (JArray [], r')
          | r' =>
              match parse_elements fuel' r' with
              | Some (vs, r'') => Some (JArray vs, r'')
              | None => None
              end
          end
      | 110 :: 117 :: 108 :: 108 :: r => Some (JNull, r)
      | 116 :: 114 :: 117 :: 101 :: r => Some (JBool true, r)
      | 102 :: 97 :: 108 :: 115 :: 101 :: r => Some (JBool false, r)
      | _ =>
          match scan_number cs with
          | Some (lexeme, r) => Some (JNumber lexeme, r)
          | None => None
          end
      end
  end
with parse_elements (fuel : nat) (cs : pystr) : option (list json * pystr) :=
  match fuel with
  | O => None
  | S fuel' =>
      match parse_value fuel' cs with
      | None => None
      | Some (v, r) =>
          match skip_ws r with
          | 44 :: r' =>
              match parse_elements fuel' (skip_ws r') with
              | Some (vs, r'') => Some (v :: vs, r'')
              | None => None
              end
          | 93 :: r' => Some ([v], r')
          | _ => None
          end
      end
  end
with parse_members (fuel : nat) (cs : pystr) : option (list (pystr * json) * pystr) :=
  match fuel with
  | O => None
  | S fuel' =>
      match cs with
      | 34 :: r =>
          match scanstring (length r) r [] with
          | None => None
          | Some (k, r0) =>
              match skip_ws r0 with
              | 58 :: r1 =>
                  match parse_value fuel' (skip_ws r1) with
                  | None => None
                  | Some (v, r2) =>
                      match skip_ws r2 with
                      | 44 :: r3 =>
                          match parse_members fuel' (skip_ws r3) with
                          | Some (ms, r4) => Some ((k, v) :: ms, r4)
                          | None => None
                          end
                      | 125 :: r3 => Some ([(k, v)], r3)
                      | _ => None
                      end
                  end
              | _ => None
              end
          end
      | _ => None
      end
  end.

(** [json.loads]: one value, surrounded by optional white space. *)
Definition json_loads (text : pystr) : option json :=
  match parse_value (S (length text)) (skip_ws text) with
  | Some (v, r) =>
      match skip_ws r with
      | [] => Some v
      | _ :: _ => None
      end
  | None => None
  end.

(** The text a JSON reader gets back from an encoded string: the encoder
    works on UTF-16 code units, and the reader joins each pair of
    surrogates. *)
Definition high_unit (n : N) : N := N.lor 0xd800 (N.land (N.shiftr n 10) 0x3ff).
Definition low_unit (n : N) : N := N.lor 0xdc00 (N.land n 0x3ff).

Definition utf16_units (s : pystr) : list N :=
  flat_map (fun c =>
    if c <? 0x10000 then [c]
    else [high_unit (c - 0x10000); low_unit (c - 0x10000)]) s.

Fixpoint utf16_join (us : list N) : pystr :=
  match us with
  | [] => []
  | u :: us' =>
      if is_high_surrogate u then
        match us' with
        | l :: us'' =>
            if is_low_surrogate l then join_surrogates u l :: utf16_join us''
            else u :: utf16_join us'
        | [] => [u]
        end
      else u :: utf16_join us'
  end.

Definition utf16_text (s : pystr) : pystr := utf16_join (utf16_units s).

(** Unicode text: scalar values only, no surrogate code points. *)
Definition scalar_value (c : N) : Prop :=
  c < 0xd800 \/ (0xe000 <= c /\ c < 0x110000).

Definition unicode_text (s : pystr) : Prop := Forall scalar_value s.

(** The JSON value an encoded Python value denotes ([PyOpaque] has no
    encoding; its image is never used). *)
Fixpoint json_of (o : pyvalue) : json :=
  match o with
  | PyNone => JNull
  | PyStr s => JString (utf16_text s)
  | PyList items => JArray (map json_of items)
  | PyDict entries =>
      JObject (map (fun kv => (utf16_text (fst kv), json_of (snd kv))) entries)
  | PyOpaque _ => JNull
  end.

(** ** The command-line parser

    [argparse.ArgumentParser] with the automatic [-h/--help], the positional
    [audio_file] and the option [-l/--language], as CPython 3.11 parses a
    command line for it. *)

Inductive action : Type :=
| HelpAction       (* -h, --help: print the help and exit *)
| StoreLanguage.   (* -l, --language: store one argument *)

(** [parser._option_string_actions], in insertion order. *)
Definition option_string_actions : list (pystr * action) :=
  [ (lit "-h", HelpAction); (lit "--help", HelpAction);
    (lit "-l", StoreLanguage); (lit "--language", StoreLanguage) ].

Fixpoint find_option (table : list (pystr * action)) (s : pystr) : option action :=
  match table with
  | [] => None
  | (o, a) :: table' => if pystr_eqb o s then Some a else find_option table' s
  end.

(** The messages [parser.error] is called with. *)
Inductive arg_error : Type :=
| RequiredArgument                            (* audio_file is missing *)
| UnrecognizedArguments (extras : list pystr)
| ExpectedOneArgument                         (* -l without a value *)
| IgnoredExplicitArgument (arg : pystr)       (* -h given a value *)
| AmbiguousOption (arg : pystr) (matches : list pystr).

(** What [parse_args] does: return a namespace, or leave through
    [sys.exit]. *)
Inductive parse_outcome : Type :=
| Namespace (audio_file : pystr) (language : pyvalue)
| HelpExit
| ErrorExit (e : arg_error).

(** [s.split('=', 1)] when [s] contains ['=']. *)
Fixpoint split_equals (s : pystr) : option (pystr * pystr) :=
  match s with
  | [] => None
  | c :: r =>
      if c =? 61 then Some ([], r)
      else match split_equals r with
           | Some (a, b) => Some (c :: a, b)
           | None => None
           end
  end.

(** [_get_option_tuples]: the options an abbreviated or glued argument may
    stand for. *)
Definition get_option_tuples (s : pystr) : list (action * pystr * option pystr) :=
  match s with
  | _ :: c1 :: _ =>
      if c1 =? 45 then
        let (prefix, explicit) :=
          match split_equals s with
          | Some (p, e) => (p, Some e)
          | None => (s, None)
          end in
        flat_map (fun oa : pystr * action =>
                    if startswith (fst oa) prefix
                    then [(snd oa, fst oa, explicit)] else [])
                 option_string_actions
      else
        flat_map (fun oa : pystr * action =>
                    if pystr_eqb (fst oa) (firstn 2 s)
                    then [(snd oa, fst oa, Some (skipn 2 s))]
                    else if startswith (fst oa) s
                    then [(snd oa, fst oa, None)] else [])
                 option_string_actions
  | _ => []
  end.

Section Parser.
(** The decimal digits of Unicode outside ASCII, which [\d] also matches. *)
Variable unicode_digit : N -> bool.

Definition re_digit (c : N) : bool := is_digit c || unicode_digit c.

Fixpoint span_digits (cs : pystr) : pystr * pystr :=
  match cs with
  | c :: cs' =>
      if re_digit c then let (ds, r) := span_digits cs' in (c :: ds, r)
      else ([], cs)
  | [] => ([], [])
  end.

Definition is_nil (s : pystr) : bool :=
  match s with [] => true | _ :: _ => false end.

(** A dollar sign matches at the end, or before a final newline. *)
Definition at_end (s : pystr) : bool :=
  match s with
  | [] => true
  | [c] => c =? 10
  | _ => false
  end.

(** [_negative_number_matcher]: [^-\d+$|^-\d*\.\d+$]. *)
Definition negative_number (s : pystr) : bool :=
  match s with
  | 45 :: r =>
      let (ds, r') := span_digits r in
      (negb (is_nil ds) && at_end r')
      || match r' with
         | 46 :: r'' =>
             let (fs, r3) := span_digits r'' in negb (is_nil fs) && at_end r3
         | _ => false
         end
  | _ => false
  end.

Inductive arg_class : Type :=
| Positional                                     (* 'A' *)
| Optional (act : option action) (option_string : pystr)
           (explicit_arg : option pystr)         (* 'O' *)
| Rejected (e : arg_error).

(** [_parse_optional] *)
Definition parse_optional (arg_string : pystr) : arg_class :=
  match arg_string with
  | [] => Positional
  | c0 :: rest =>
      if negb (c0 =? 45) then Positional
      else
        match find_option option_string_actions arg_string with
        | Some a => Optional (Some a) arg_string None
        | None =>
            if is_nil rest then Positional
            else
              let by_equals :=
                match split_equals arg_string with
                | Some (o, e) =>
                    match find_option option_string_actions o with
                    | Some a => Some (Optional (Some a) o (Some e))
                    | None => None
                    end
                | None => None
                end in
              match by_equals with
              | Some c => c
              | None =>
                  match get_option_tuples arg_string with
                  | (_ :: _ :: _) as tuples =>
                      Rejected (AmbiguousOption arg_string
                                  (map (fun t => snd (fst t)) tuples))
                  | [(a, o, e)] => Optional (Some a) o e
                  | [] =>
                      if negative_number arg_string then Positional
                      else if existsb (N.eqb 32) arg_string then Positional
                      else Optional None arg_string None
                  end
              end
        end
  end.

(** The argument strings with their classes: ['A'], ['O'], and ['-'] for
    the first [--], after which everything is an argument. *)
Inductive token : Type :=
| TokA (s : pystr)
| TokO (arg_string : pystr) (act : option action) (option_string : pystr)
       (explicit_arg : option pystr)
| TokDashes.

Fixpoint classify (args : list pystr) : arg_error + list token :=
  match args with
  | [] => inr []
  | a :: args' =>
      if pystr_eqb a (lit "--") then inr (TokDashes :: map TokA args')
      else
        match parse_optional a with
        | Rejected e => inl e
        | c =>
            match classify args' with
            | inl e => inl e
            | inr ts =>
                inr (match c with
                     | Optional act o e => TokO a act o e
                     | _ => TokA a
                     end :: ts)
            end
        end
  end.

Definition is_option (t : token) : bool :=
  match t with TokO _ _ _ _ => true | _ => false end.

Definition token_string (t : token) : pystr :=
  match t with
  | TokA s => s
  | TokO s _ _ _ => s
  | TokDashes => lit "--"
  end.

(** [_get_values] for one argument string: a [--] is dropped first, and
    what is left of a lone [--] is the empty list. *)
Definition get_value (arg_string : pystr) : pyvalue :=
  if pystr_eqb arg_string (lit "--") then PyList [] else PyStr arg_string.

(** [-h] with an explicit argument: each character is tried as another
    one-letter option of the same argument string. [next_is_A] tells
    whether an argument follows on the command line. *)
Fixpoint help_explicit (explicit_arg : pystr) (next_is_A : bool) : parse_outcome :=
  match explicit_arg with
  | [] => ErrorExit (IgnoredExplicitArgument [])
  | c :: rest =>
      match find_option option_string_actions [45; c] with
      | Some HelpAction =>
          if is_nil rest then HelpExit else help_explicit rest next_is_A
      | Some StoreLanguage =>
          if is_nil rest && negb next_is_A
          then ErrorExit ExpectedOneArgument else HelpExit
      | None => ErrorExit (IgnoredExplicitArgument explicit_arg)
      end
  end.

Definition next_is_argument (ts : list token) : bool :=
  match ts with TokA _ :: _ => true | _ => false end.

(** The required arguments, then the unrecognized ones. *)
Definition finish (audio : option pystr) (language : pyvalue)
           (extras : list pystr) : parse_outcome :=
  match audio with
  | None => ErrorExit RequiredArgument
  | Some f =>
      match extras with
      | [] => Namespace f language
      | _ :: _ => ErrorExit (UnrecognizedArguments extras)
      end
  end.

(** After the last option: [audio_file], if still missing, takes the
    first argument, together with a [--] next to it; what is left over is
    unrecognized. *)
Definition consume_rest (ts : list token) (audio : option pystr)
           (language : pyvalue) (extras : list pystr) : parse_outcome :=
  match audio, ts with
  | None, TokA s :: TokDashes :: ts'
  | None, TokA s :: ts'
  | None, TokDashes :: TokA s :: ts' =>
      finish (Some s) language (extras ++ map token_string ts')
  | _, _ => finish audio language (extras ++ map token_string ts)
  end.

(** The loop of [_parse_known_args]: up to the last option, arguments go
    to [audio_file] or to the extras, and options take their action. *)
Fixpoint consume (ts : list token) (audio : option pystr)
         (language : pyvalue) (extras : list pystr) : parse_outcome :=
  if negb (existsb is_option ts) then consume_rest ts audio language extras
  else
    match ts with
    | TokA s :: ts' =>
        match audio with
        | None => consume ts' (Some s) language extras
        | Some _ => consume ts' audio language (extras ++ [s])
        end
    | TokO s None _ _ :: ts' => consume ts' audio language (extras ++ [s])
    | TokO _ (Some HelpAction) _ None :: _ => HelpExit
    | TokO _ (Some HelpAction) o (Some e) :: ts' =>
        if pystr_eqb o (lit "-h")
        then help_explicit e (next_is_argument ts')
        else ErrorExit (IgnoredExplicitArgument e)
    | TokO _ (Some StoreLanguage) _ (Some e) :: ts' =>
        consume ts' audio (get_value e) extras
    | TokO _ (Some StoreLanguage) _ None :: ts' =>
        match ts' with
        | TokA v :: ts'' => consume ts'' audio (get_value v) extras
        | _ => ErrorExit ExpectedOneArgument
        end
    | _ => consume_rest ts audio language extras
    end.

(** [parser.parse_args()] on [sys.argv[1:]]. *)
Definition parse_args (args : list pystr) : parse_outcome :=
  match classify args with
  | inl e => ErrorExit e
  | inr ts => consume ts None PyNone []
  end.
End Parser.

(** ** The environment of a run *)

(** A Python dict with string keys, as [model.transcribe] returns. *)
Definition pydict := list (pystr * pyvalue).

(** The object [whisper.load_model] returns; [transcribe path fp16 language]
    is [model.transcribe(path, fp16=fp16, language=language)]. *)
Record WhisperModel : Type := {
  transcribe : pystr -> bool -> pyvalue -> result pydict
}.

(** What a run depends on: the command line, the file system, the model
    library, and what the interpreter knows of Unicode and of the terminal.
    The calls to the file system and to the model library answer or raise;
    they are taken to write nothing to the standard streams themselves. *)
Record World : Type := {
  argv0 : pystr;                           (* sys.argv[0] *)
  args : list pystr;                       (* sys.argv[1:] *)
  path_exists : pystr -> bool;             (* os.path.exists *)
  load_model : pystr -> result WhisperModel;   (* whisper.load_model *)
  unicode_digit : N -> bool;               (* non-ASCII decimal digits *)
  repr_str : pystr -> pystr;               (* repr() of a str *)
  usage_body : pystr;    (* format_usage() after its prefix: the program name
                            and the arguments, wrapped to the terminal *)
  help_body : pystr      (* format_help() after the same prefix *)
}.

(** ** The process *)

(** The calls a run makes to the file system and to the model, in order. *)
Inductive call : Type :=
| OsPathExists (path : pystr)
| WhisperLoadModel (name : pystr)
| ModelTranscribe (audio : pystr) (fp16 : bool) (language : pyvalue).

Record Process : Type := mkProcess {
  stdout : pystr;
  stderr : pystr;
  calls : list call
}.

Definition started : Process := mkProcess [] [] [].

(** A statement returns, raises an [Exception], or leaves through
    [sys.exit]. *)
Inductive control (A : Type) : Type :=
| Normal (a : A)
| Raised (e : PyException)
| Exited (code : Z).
Arguments Normal {A} a.
Arguments Raised {A} e.
Arguments Exited {A} code.

Definition M (A : Type) : Type := Process -> control A * Process.

Definition ret {A} (a : A) : M A := fun p => (Normal a, p).

Definition bind {A B} (c : M A) (k : A -> M B) : M B :=
  fun p =>
    match c p with
    | (Normal a, p') => k a p'
    | (Raised e, p') => (Raised e, p')
    | (Exited n, p') => (Exited n, p')
    end.

Notation "x <- c ;; k" := (bind c (fun x => k))
  (at level 61, c at next level, right associativity).
Notation "c ;; k" := (bind c (fun _ => k))
  (at level 61, right associativity).

(** A pure call that may raise. *)
Definition lift {A} (r : result A) : M A :=
  fun p =>
    match r with
    | Return a => (Normal a, p)
    | Raise e => (Raised e, p)
    end.

(** [sys.exit(code)]: [SystemExit] is not an [Exception]. *)
Definition sys_exit {A} (code : Z) : M A := fun p => (Exited code, p).

(** [try: body except Exception as e: handler(e)] *)
Definition try_except {A} (body : M A) (handler : PyException -> M A) : M A :=
  fun p =>
    match body p with
    | (Raised e, p') => handler e p'
    | other => other
    end.

Definition write_stdout (text : pystr) : M unit :=
  fun p => (Normal tt, mkProcess (stdout p ++ text) (stderr p) (calls p)).

Definition write_stderr (text : pystr) : M unit :=
  fun p => (Normal tt, mkProcess (stdout p) (stderr p ++ text) (calls p)).

Definition record (c : call) : M unit :=
  fun p => (Normal tt, mkProcess (stdout p) (stderr p) (calls p ++ [c])).

(** [print(text)] and [print(text, file=sys.stderr)]: the text and a
    newline are appended to the stream.  The streams are taken to accept
    what is written to them: a device that refuses a write or the flush at
    exit (the interpreter then raises [OSError], or ends with status 120)
    is outside this model. *)
Definition print (text : pystr) : M unit := write_stdout (text ++ [10]).
Definition print_stderr (text : pystr) : M unit := write_stderr (text ++ [10]).

(** [d[key]]; for a key of plain letters, [str(KeyError(key))] is the key
    between single quotes. *)
Fixpoint dict_get (d : pydict) (key : pystr) : option pyvalue :=
  match d with
  | [] => None
  | (k, v) :: d' => if pystr_eqb k key then Some v else dict_get d' key
  end.

Definition getitem (d : pydict) (key : pystr) : result pyvalue :=
  match dict_get d key with
  | Some v => Return v
  | None => Raise (mkException (lit "KeyError") (lit "'" ++ key ++ lit "'"))
  end.

Section Run.
Variable W : World.

Definition os_path_exists (path : pystr) : M bool :=
  record (OsPathExists path) ;; ret (path_exists W path).

Definition whisper_load_model (name : pystr) : M WhisperModel :=
  record (WhisperLoadModel name) ;; lift (load_model W name).

Definition model_transcribe (model : WhisperModel) (audio : pystr)
           (fp16 : bool) (language : pyvalue) : M pydict :=
  record (ModelTranscribe audio fp16 language) ;;
  lift (transcribe model audio fp16 language).

(** *** What argparse prints *)

(** [os.path.basename(sys.argv[0])]: what follows the last slash. *)
Fixpoint basename (path : pystr) : pystr :=
  match path with
  | [] => []
  | _ :: rest => if existsb (N.eqb 47) path then basename rest else path
  end.

Definition prog : pystr := basename (argv0 W).

Definition format_usage : pystr := lit "usage: " ++ usage_body W.
Definition format_help : pystr := lit "usage: " ++ help_body W.

Definition error_message (e : arg_error) : pystr :=
  match e with
  | RequiredArgument =>
      lit "the following arguments are required: audio_file"
  | UnrecognizedArguments extras =>
      lit "unrecognized arguments: " ++ join (lit " ") extras
  | ExpectedOneArgument =>
      lit "argument -l/--language: expected one argument"
  | IgnoredExplicitArgument arg =>
      lit "argument -h/--help: ignored explicit argument " ++ repr_str W arg
  | AmbiguousOption arg matches =>
      lit "ambiguous option: " ++ arg ++ lit " could match "
        ++ join (lit ", ") matches
  end.

(** [parser.parse_args()]: the namespace, or the help on stdout and exit
    code 0, or the usage and an error on stderr and exit code 2. *)
Definition parser_parse_args : M (pystr * pyvalue) :=
  match parse_args (unicode_digit W) (args W) with
  | Namespace audio_file language => ret (audio_file, language)
  | HelpExit => write_stdout format_help ;; sys_exit 0
  | ErrorExit e =>
      write_stderr format_usage ;;
      write_stderr (prog ++ lit ": error: " ++ error_message e ++ [10]) ;;
      sys_exit 2
  end.

(** *** backend/transcribe.py *)

Definition MODEL_SIZE : pystr := lit "base".
Definition USE_FP16 : bool := false.

(** The two messages of the script; the second has an o with an acute
    accent (code point 243) in its last word. *)
Definition not_found_message (file_path : pystr) : pystr :=
  lit "Archivo de audio no encontrado: " ++ file_path.

Definition error_message_of (e : PyException) : pystr :=
  lit "Error durante el proceso de transcripci" ++ [243] ++ lit "n: "
    ++ exc_str e.

Definition transcribe_audio (file_path : pystr) (language_code : pyvalue)
  : M unit :=
  found <- os_path_exists file_path ;;
  (if negb found then
     line <- lift (json_dumps
               (PyDict [(lit "error", PyStr (not_found_message file_path))])) ;;
     print_stderr line ;;
     sys_exit 1
   else ret tt) ;;
  try_except
    (model <- whisper_load_model MODEL_SIZE ;;
     result <- model_transcribe model file_path USE_FP16 language_code ;;
     text <- lift (getitem result (lit "text")) ;;
     line <- lift (json_dumps (PyDict [(lit "transcription", text)])) ;;
     print line)
    (fun e =>
       let error_message := error_message_of e in
       line <- lift (json_dumps (PyDict [(lit "error", PyStr error_message)])) ;;
       print_stderr line ;;
       sys_exit 1).

(** The [__main__] block. *)
Definition main : M unit :=
  (if (length (argv0 W :: args W) =? 1)%nat then
     write_stderr format_help ;;
     sys_exit 1
   else ret tt) ;;
  ns <- parser_parse_args ;;
  transcribe_audio (fst ns) (snd ns).

(** How the process ends: with an exit code, or on an exception nobody
    caught.  A script that returns ends with code 0; this is the exit of a
    process whose streams accepted everything written (see [print]). *)
Inductive termination : Type :=
| ExitCode (code : Z)
| Uncaught (e : PyException).

Definition run : termination * Process :=
  match main started with
  | (Normal _, p) => (ExitCode 0, p)
  | (Exited code, p) => (ExitCode code, p)
  | (Raised e, p) => (Uncaught e, p)
  end.
End Run.

Definition exit_status (W : World) : termination := fst (run W).
Definition output (W : World) : Process := snd (run W).

(** The text [json.dumps] writes for a dict with one key, given the
    encoding of its value. *)
Definition object1 (key value_text : pystr) : pystr :=
  lit "{" ++ (encode_basestring_ascii key ++ lit ": " ++ value_text) ++ lit "}".

(** The line on stderr for an error message. *)
Definition error_report (message : pystr) : pystr :=
  object1 (lit "error") (encode_basestring_ascii message) ++ [10].

(** ** Sample runs *)

Module Sample.

Definition hola : pystr := lit " Hola, se" ++ [241] ++ lit "or " ++ [0x1f600].

(** A result as the model returns it: the text and its metadata. *)
Definition result_es : pydict :=
  [ (lit "text", PyStr hola);
    (lit "segments", PyList [PyDict [(lit "text", PyStr hola)]]);
    (lit "language", PyStr (lit "es")) ].

Definition one_of (names : list pystr) (s : pystr) : bool :=
  existsb (pystr_eqb s) names.

(** A model that transcribes [audio.wav], rejects languages it does not
    know and files it cannot decode, and returns odd results for two
    other files. *)
Definition model : WhisperModel := {|
  transcribe path fp16 language :=
    if pystr_eqb path (lit "audio.wav") then
      match language with
      | PyNone => Return result_es
      | PyStr code =>
          if one_of [lit "es"; lit "en"] code then Return result_es
          else Raise (mkException (lit "ValueError")
                        (lit "Unsupported language: " ++ code))
      | _ => Raise (mkException (lit "AttributeError")
                      (lit "'list' object has no attribute 'lower'"))
      end
    else if pystr_eqb path (lit "no_text.wav") then
      Return [(lit "language", PyStr (lit "es"))]
    else if pystr_eqb path (lit "tensor.wav") then
      Return [(lit "text", PyOpaque (lit "Tensor"))]
    else Raise (mkException (lit "RuntimeError")
                  (lit "Failed to load audio: " ++ path))
|}.

Definition files : list pystr :=
  [lit "audio.wav"; lit "recordings"; lit "no_text.wav"; lit "tensor.wav"].

Definition help_80 : pystr :=
  lit "transcribe.py [-h] [-l LANGUAGE] audio_file" ++ [10]
  ++ [10]
  ++ lit "Transcribe un archivo de audio utilizando OpenAI Whisper." ++ [10]
  ++ [10]
  ++ lit "positional arguments:" ++ [10]
  ++ lit "  audio_file            Ruta al archivo de audio a transcribir." ++ [10]
  ++ [10]
  ++ lit "options:" ++ [10]
  ++ lit "  -h, --help            show this help message and exit" ++ [10]
  ++ lit "  -l LANGUAGE, --language LANGUAGE" ++ [10]
  ++ lit "                        Opcional: C" ++ [243]
  ++ lit "digo de idioma (ej. 'en', 'es') para guiar" ++ [10]
  ++ lit "                        la transcripci" ++ [243]
  ++ lit "n. Si se omite, el idioma se auto-" ++ [10]
  ++ lit "                        detecta." ++ [10].

(** The script run as [backend/transcribe.py] with the given arguments,
    on an 80-column terminal. *)
Definition world (arguments : list pystr) : World := {|
  argv0 := lit "backend/transcribe.py";
  args := arguments;
  path_exists := one_of files;
  load_model name :=
    if pystr_eqb name (lit "base") then Return model
    else Raise (mkException (lit "RuntimeError")
                  (lit "Model " ++ name ++ lit " not found"));
  unicode_digit c := (0x660 <=? c) && (c <=? 0x669);
  repr_str s := lit "'" ++ s ++ lit "'";
  usage_body := lit "transcribe.py [-h] [-l LANGUAGE] audio_file" ++ [10];
  help_body := help_80
|}.

(** The same with a model library that cannot load its weights. *)
Definition offline (arguments : list pystr) : World := {|
  argv0 := lit "backend/transcribe.py";
  args := arguments;
  path_exists := one_of files;
  load_model name :=
    Raise (mkException (lit "URLError")
             (lit "<urlopen error [Errno -3] Temporary failure in name resolution>"));
  unicode_digit c := (0x660 <=? c) && (c <=? 0x669);
  repr_str s := lit "'" ++ s ++ lit "'";
  usage_body := lit "transcribe.py [-h] [-l LANGUAGE] audio_file" ++ [10];
  help_body := help_80
|}.

End Sample.

(** ** Definitions used by the proofs *)

(** What the [try] block computes when nothing fails: the encoding of the
    text it prints. *)
Definition transcription (W : World) (f : pystr) (l : pyvalue) : result pystr :=
  match load_model W MODEL_SIZE with
  | Raise e => Raise e
  | Return m =>
      match transcribe m f USE_FP16 l with
      | Raise e => Raise e
      | Return r =>
          match getitem r (lit "text") with
          | Raise e => Raise e
          | Return v => json_dumps v
          end
      end
  end.

(** The calls of a run that reaches the model, and the state a failed run
    ends in. *)
Definition calls_upto_transcribe (f : pystr) (l : pyvalue) : list call :=
  [OsPathExists f; WhisperLoadModel MODEL_SIZE; ModelTranscribe f USE_FP16 l].

Definition failed (e : PyException) (cs : list call) : control unit * Process :=
  (Exited 1, mkProcess [] (error_report (error_message_of e)) cs).

(** The numbers [n], [n+1], ..., [k] of them. *)
Fixpoint upto (k : nat) (n : N) : list N :=
  match k with
  | O => []
  | S k' => n :: upto k' (N.succ n)
  end.

(** [format_04x] and [decode_uXXXX] agree on [u]. *)
Definition hex_ok (u : N) : bool :=
  match format_04x u with
  | [a; b; c; d] =>
      match hex_value a, hex_value b, hex_value c, hex_value d with
      | Some x, Some y, Some z, Some w => x * 4096 + y * 256 + z * 16 + w =? u
      | _, _, _, _ => false
      end
  | _ => false
  end.

(** The first character of an encoding starts a value and is not white
    space. *)
Definition value_start (c : N) : Prop := c = 110 \/ c = 34 \/ c = 91 \/ c = 123.

(** Fuel that suffices to read the encoding of a value. *)
Fixpoint weight (o : pyvalue) : nat :=
  match o with
  | PyList items => S (fold_right (fun x n => S (weight x + n)) O items)
  | PyDict entries => S (fold_right (fun kv n => S (weight (snd kv) + n)) O entries)
  | _ => 1
  end.

Definition items_weight (items : list pyvalue) : nat :=
  fold_right (fun x n => S (weight x + n)) O items.

Definition entries_weight (entries : list (pystr * pyvalue)) : nat :=
  fold_right (fun kv n => S (weight (snd kv) + n)) O entries.

(** What the induction carries for one value. *)
Definition reads_back (o : pyvalue) : Prop :=
  forall text, json_dumps o = Return text ->
  forall fuel rest, (weight o <= fuel)%nat ->
    parse_value fuel (text ++ rest) = Some (json_of o, rest).


(** ** Definitions for the further properties *)

(** Printable ASCII: what [ensure_ascii] leaves in the output. *)
Definition printable (c : N) : bool := (32 <=? c) && (c <=? 126).

(** The code points a command-line argument can hold: no high surrogate
    (bytes that do not decode are kept as low surrogates only). *)
Definition no_high_surrogate (c : N) : Prop :=
  c < 0xd800 \/ (0xdc00 <= c /\ c < 0x110000).

(** An argument that does not start with a dash. *)
Definition plain (a : pystr) : Prop := startswith a (lit "-") = false.

(** The JSON value with the strings of a Python value as they are. *)
Fixpoint json_plain (o : pyvalue) : json :=
  match o with
  | PyNone => JNull
  | PyStr s => JString s
  | PyList items => JArray (map json_plain items)
  | PyDict entries =>
      JObject (map (fun kv => (fst kv, json_plain (snd kv))) entries)
  | PyOpaque _ => JNull
  end.

(** Every string and every key of a value is Unicode text. *)
Fixpoint unicode_value (o : pyvalue) : Prop :=
  match o with
  | PyStr s => unicode_text s
  | PyList items => fold_right (fun x P => unicode_value x /\ P) True items
  | PyDict entries =>
      fold_right (fun kv P => unicode_text (fst kv) /\ unicode_value (snd kv) /\ P)
                 True entries
  | _ => True
  end.

(** A model whose result has no text to offer: the "text" entry is [None]. *)
Definition silent_model : WhisperModel := {|
  transcribe path fp16 language :=
    Return [(lit "text", PyNone); (lit "language", PyStr (lit "en"))]
|}.

(** [Sample.world] with that model. *)
Definition silent_world (arguments : list pystr) : World := {|
  argv0 := argv0 (Sample.world arguments);
  args := arguments;
  path_exists := path_exists (Sample.world arguments);
  load_model name := Return silent_model;
  unicode_digit := unicode_digit (Sample.world arguments);
  repr_str := repr_str (Sample.world arguments);
  usage_body := usage_body (Sample.world arguments);
  help_body := help_body (Sample.world arguments)
|}.

(** A file name with a byte that is not UTF-8 (0xE9), as [sys.argv] holds
    it. *)
Definition undecodable_name : pystr := lit "caf" ++ [0xdce9] ++ lit ".wav".

(** * Proofs *)

(** ** JSON: what is written reads back *)

Lemma in_upto k : forall n u, n <= u -> u < n + N.of_nat k -> In u (upto k n).
Proof.
  induction k as [|k IH]; intros n u Hl Hu.
  - simpl in Hu. lia.
  - simpl. destruct (N.eq_dec n u) as [->|Hne]; [now left|right].
    apply IH; lia.
Qed.

Lemma check_below (P : N -> bool) (k : N) :
  forallb P (upto (N.to_nat k) 0) = true -> forall u, u < k -> P u = true.
Proof.
  intros H u Hu. rewrite forallb_forall in H. apply H.
  apply in_upto; [lia|]. rewrite N2Nat.id. lia.
Qed.

Lemma hex_ok_all : forall u, u < 0x10000 -> hex_ok u = true.
Proof. apply check_below. vm_compute. reflexivity. Qed.

Lemma decode_format u rest :
  u < 0x10000 -> decode_uXXXX (format_04x u ++ rest) = Some (u, rest).
Proof.
  intros Hu. pose proof (hex_ok_all u Hu) as H. unfold hex_ok in H.
  destruct (format_04x u) as [|a [|b [|c [|d [|? ?]]]]]; try discriminate.
  simpl. destruct (hex_value a), (hex_value b), (hex_value c), (hex_value d);
    try discriminate.
  apply N.eqb_eq in H. now rewrite H.
Qed.

Lemma escape_char_cases u :
  u < 0x10000 ->
  (escape_char u = [u] /\ (u =? 34) = false /\ (u =? 92) = false
     /\ (u <? 32) = false /\ u < 0xd800)
  \/ (exists e, escape_char u = [92; e] /\ (e =? 117) = false
        /\ unescape e = Some u /\ u < 0xd800)
  \/ escape_char u = 92 :: 117 :: format_04x u.
Proof.
  intros Hu. unfold escape_char, ESCAPE_ASCII, replace, ESCAPE_DCT.
  destruct (N.eqb_spec u 92) as [->|H92].
  { right; left. exists 92. now vm_compute. }
  destruct (N.eqb_spec u 34) as [->|H34].
  { right; left. exists 34. now vm_compute. }
  destruct (N.leb_spec 32 u) as [H32|H32]; cbn [orb andb negb].
  - destruct (N.leb_spec u 126) as [H126|H126]; cbn [negb].
    + left.
      repeat split; try (apply N.eqb_neq; assumption); try lia.
      apply N.ltb_ge; assumption.
    + right; right.
      destruct (N.eqb_spec u 8); [lia|]. destruct (N.eqb_spec u 12); [lia|].
      destruct (N.eqb_spec u 10); [lia|]. destruct (N.eqb_spec u 13); [lia|].
      destruct (N.eqb_spec u 9); [lia|].
      destruct (N.ltb_spec u 32); [lia|].
      destruct (N.ltb_spec u 0x10000); [|lia]. reflexivity.
  - destruct (N.eqb_spec u 8) as [->|?]; [right; left; exists 98; now vm_compute|].
    destruct (N.eqb_spec u 12) as [->|?]; [right; left; exists 102; now vm_compute|].
    destruct (N.eqb_spec u 10) as [->|?]; [right; left; exists 110; now vm_compute|].
    destruct (N.eqb_spec u 13) as [->|?]; [right; left; exists 114; now vm_compute|].
    destruct (N.eqb_spec u 9) as [->|?]; [right; left; exists 116; now vm_compute|].
    destruct (N.ltb_spec u 32); [|lia]. right; right. reflexivity.
Qed.

Lemma not_surrogate_below u :
  u < 0xd800 -> is_high_surrogate u = false /\ is_low_surrogate u = false.
Proof.
  intros H. unfold is_high_surrogate, is_low_surrogate.
  split; apply andb_false_iff; left; apply N.leb_gt; lia.
Qed.

Lemma utf16_join_single u us :
  is_high_surrogate u = false -> utf16_join (u :: us) = u :: utf16_join us.
Proof. intros H. cbn [utf16_join]. now rewrite H. Qed.

Lemma rev_cons_app (u : N) acc tl : rev (u :: acc) ++ tl = rev acc ++ u :: tl.
Proof. simpl. now rewrite <- app_assoc. Qed.

(** Scanning the escaped form of a sequence of code units, up to the
    closing quote, gives back the units with their surrogate pairs joined. *)
Lemma scan_units n :
  forall us, (length us <= n)%nat -> Forall (fun u => u < 0x10000) us ->
  forall fuel acc rest,
    (length (flat_map escape_char us) < fuel)%nat ->
    scanstring fuel (flat_map escape_char us ++ QUOTE :: rest) acc
    = Some (rev acc ++ utf16_join us, rest).
Proof.
  induction n as [|n IH]; intros us Hlen Hall fuel acc rest Hfuel.
  - destruct us; [|simpl in Hlen; lia].
    destruct fuel; [simpl in Hfuel; lia|]. simpl. now rewrite app_nil_r.
  - destruct us as [|u us'].
    { destruct fuel; [simpl in Hfuel; lia|]. simpl. now rewrite app_nil_r. }
    inversion Hall as [|? ? Hu Hall']; subst.
    simpl in Hlen.
    destruct fuel as [|f]; [lia|].
    assert (Hsingle : forall acc',
      (length (flat_map escape_char us') < f)%nat ->
      scanstring f (flat_map escape_char us' ++ QUOTE :: rest) acc'
      = Some (rev acc' ++ utf16_join us', rest)).
    { intros acc' Hf. apply IH; [lia|assumption|assumption]. }
    cbn [flat_map] in Hfuel |- *. rewrite length_app in Hfuel.
    rewrite <- app_assoc.
    destruct (escape_char_cases u Hu)
      as [(E & Hq & Hb & Hc & Hlow) | [(e & E & He & Hun & Hlow) | E]];
      rewrite E in Hfuel |- *; simpl in Hfuel.
    + destruct (not_surrogate_below u Hlow) as [Hh _].
      cbn [app scanstring]. unfold QUOTE, BACKSLASH in *. rewrite Hq, Hb, Hc.
      rewrite Hsingle by lia.
      now rewrite utf16_join_single, rev_cons_app.
    + destruct (not_surrogate_below u Hlow) as [Hh _].
      cbn [app scanstring]. unfold QUOTE, BACKSLASH in *.
      change (92 =? 34) with false. change (92 =? 92) with true. cbn iota.
      rewrite He, Hun.
      rewrite Hsingle by lia.
      now rewrite utf16_join_single, rev_cons_app.
    + assert (Hlenf : length (format_04x u) = 4%nat).
      { pose proof (hex_ok_all u Hu) as H. unfold hex_ok in H.
        destruct (format_04x u) as [|a [|b [|c [|d [|? ?]]]]];
          try discriminate; reflexivity. }
      rewrite Hlenf in Hfuel.
      cbn [app scanstring]. unfold QUOTE, BACKSLASH in *.
      change (92 =? 34) with false. change (92 =? 92) with true.
      change (117 =? 117) with true. cbn iota.
      rewrite <- ?app_assoc. rewrite decode_format by assumption.
      destruct (is_high_surrogate u) eqn:Hh.
      * destruct us' as [|l us''].
        { cbn [flat_map app]. change (34 =? 92) with false. cbn iota.
          destruct f; [lia|]. simpl. now rewrite Hh. }
        inversion Hall' as [|? ? Hl Hall'']; subst.
        cbn [utf16_join]. rewrite Hh.
        cbn [flat_map] in Hsingle, Hfuel |- *.
        destruct (escape_char_cases l Hl)
          as [(El & Hq & Hb & Hc & Hlow) | [(e & El & He & Hun & Hlow) | El]].
        -- destruct (not_surrogate_below l Hlow) as [_ Hnl]. rewrite Hnl.
           rewrite <- rev_cons_app. rewrite <- Hsingle by lia.
           rewrite El. cbn [app]. now rewrite Hb.
        -- destruct (not_surrogate_below l Hlow) as [_ Hnl]. rewrite Hnl.
           rewrite <- rev_cons_app. rewrite <- Hsingle by lia.
           rewrite El. cbn [app]. change (92 =? 92) with true. cbn iota.
           now rewrite He.
        -- destruct (is_low_surrogate l) eqn:Hll.
           ++ rewrite length_app in Hfuel.
              rewrite El in Hfuel |- *. simpl in Hfuel.
              assert (Hlenl : length (format_04x l) = 4%nat).
              { pose proof (hex_ok_all l Hl) as H. unfold hex_ok in H.
                destruct (format_04x l) as [|a [|b [|c [|d [|? ?]]]]];
                  try discriminate; reflexivity. }
              rewrite Hlenl in Hfuel.
              cbn [app]. change (92 =? 92) with true.
              change (117 =? 117) with true. cbn iota.
              rewrite <- ?app_assoc. cbn [app]. rewrite decode_format by assumption.
              rewrite Hll.
              rewrite IH; [|simpl in Hlen; lia|assumption|lia].
              now rewrite rev_cons_app.
           ++ rewrite <- rev_cons_app. rewrite <- Hsingle by lia.
              rewrite El. cbn [app]. change (92 =? 92) with true.
              change (117 =? 117) with true. cbn iota.
              rewrite <- ?app_assoc. cbn [app]. rewrite decode_format by assumption.
              now rewrite Hll.
      * rewrite Hsingle by lia.
        now rewrite utf16_join_single, rev_cons_app.
Qed.

(** *** Surrogate arithmetic *)

Lemma lor_shift_low a b : b < 1024 -> N.lor (N.shiftl a 10) b = a * 1024 + b.
Proof.
  intros Hb.
  assert (Hdisj : N.land (N.shiftl a 10) b = 0).
  { apply N.bits_inj. intros i. rewrite N.land_spec, N.bits_0.
    destruct (N.lt_ge_cases i 10) as [Hi|Hi].
    - now rewrite N.shiftl_spec_low.
    - rewrite <- (N.mod_small b (2 ^ 10)) by exact Hb.
      rewrite N.mod_pow2_bits_high by exact Hi. apply andb_false_r. }
  rewrite <- N.lxor_lor, <- N.add_nocarry_lxor by exact Hdisj.
  now rewrite N.shiftl_mul_pow2.
Qed.

Lemma land_3ff y : N.land y 0x3ff = y mod 1024.
Proof. change 0x3ff with (N.ones 10). now rewrite N.land_ones. Qed.

Lemma high_unit_eq n : high_unit n = 0xd800 + (n / 1024) mod 1024.
Proof.
  unfold high_unit. rewrite land_3ff, N.shiftr_div_pow2.
  change 0xd800 with (N.shiftl 54 10). rewrite lor_shift_low.
  - reflexivity.
  - apply N.mod_lt. discriminate.
Qed.

Lemma low_unit_eq n : low_unit n = 0xdc00 + n mod 1024.
Proof.
  unfold low_unit. rewrite land_3ff.
  change 0xdc00 with (N.shiftl 55 10). rewrite lor_shift_low.
  - reflexivity.
  - apply N.mod_lt. discriminate.
Qed.

Lemma high_unit_range n : 0xd800 <= high_unit n /\ high_unit n <= 0xdbff.
Proof.
  rewrite high_unit_eq.
  pose proof (N.mod_lt (n / 1024) 1024 ltac:(discriminate)).
  set (x := (n / 1024) mod 1024) in *. clearbody x. lia.
Qed.

Lemma low_unit_range n : 0xdc00 <= low_unit n /\ low_unit n <= 0xdfff.
Proof.
  rewrite low_unit_eq.
  pose proof (N.mod_lt n 1024 ltac:(discriminate)).
  set (x := n mod 1024) in *. clearbody x. lia.
Qed.

Lemma high_unit_is_high n : is_high_surrogate (high_unit n) = true.
Proof.
  destruct (high_unit_range n). unfold is_high_surrogate.
  apply andb_true_iff; split; apply N.leb_le; assumption.
Qed.

Lemma low_unit_is_low n : is_low_surrogate (low_unit n) = true.
Proof.
  destruct (low_unit_range n). unfold is_low_surrogate.
  apply andb_true_iff; split; apply N.leb_le; assumption.
Qed.

Lemma join_units n :
  n < 0x100000 -> join_surrogates (high_unit n) (low_unit n) = 0x10000 + n.
Proof.
  intros Hn. unfold join_surrogates.
  rewrite high_unit_eq, low_unit_eq.
  rewrite !(N.add_comm _ (_ mod 1024)), !N.add_sub.
  rewrite lor_shift_low by (apply N.mod_lt; discriminate).
  rewrite (N.mod_small (n / 1024)).
  - pose proof (N.div_mod n 1024 ltac:(discriminate)) as Hdm.
    set (q := n / 1024) in *. set (r := n mod 1024) in *. clearbody q r. lia.
  - apply N.Div0.div_lt_upper_bound. lia.
Qed.

(** The escaped form of a supplementary character is that of its two
    surrogates. *)
Lemma escape_supplementary c :
  0x10000 <= c ->
  escape_char c
  = escape_char (high_unit (c - 0x10000)) ++ escape_char (low_unit (c - 0x10000)).
Proof.
  intros Hc.
  assert (Hsur : forall u, 0xd800 <= u -> u <= 0xdfff ->
            escape_char u = 92 :: 117 :: format_04x u).
  { intros u Hl Hh.
    destruct (escape_char_cases u ltac:(lia))
      as [(_ & _ & _ & _ & Hlow) | [(e & _ & _ & _ & Hlow) | E]];
      [lia | lia | exact E]. }
  destruct (high_unit_range (c - 0x10000)), (low_unit_range (c - 0x10000)).
  rewrite (Hsur (high_unit _)), (Hsur (low_unit _)) by lia.
  unfold escape_char, ESCAPE_ASCII, replace, ESCAPE_DCT.
  repeat match goal with
  | |- context [N.eqb c ?k] => destruct (N.eqb_spec c k); [lia|]
  | |- context [N.ltb c ?k] => destruct (N.ltb_spec c k); [lia|]
  | |- context [N.leb c ?k] => destruct (N.leb_spec c k); [lia|]
  | |- context [N.leb ?k c] => destruct (N.leb_spec k c); [|lia]
  end.
  reflexivity.
Qed.

Lemma escape_units s :
  flat_map escape_char s = flat_map escape_char (utf16_units s).
Proof.
  induction s as [|c s IH]; [reflexivity|].
  unfold utf16_units in *. cbn [flat_map]. rewrite flat_map_app, <- IH.
  f_equal.
  destruct (N.ltb_spec c 0x10000) as [H|H]; cbn [flat_map].
  - now rewrite app_nil_r.
  - rewrite app_nil_r. now apply escape_supplementary.
Qed.

Lemma utf16_units_small s : Forall (fun u => u < 0x10000) (utf16_units s).
Proof.
  induction s as [|c s IH]; [constructor|].
  unfold utf16_units in *. cbn [flat_map]. apply Forall_app; split; [|exact IH].
  destruct (N.ltb_spec c 0x10000) as [H|H].
  - now repeat constructor.
  - pose proof (high_unit_range (c - 0x10000)).
    pose proof (low_unit_range (c - 0x10000)).
    repeat constructor; unfold high_unit, low_unit in *; lia.
Qed.

(** Reading an encoded string gives [utf16_text] of it. *)
Lemma scan_encoded s fuel rest :
  (length (flat_map escape_char s) < fuel)%nat ->
  scanstring fuel (flat_map escape_char s ++ QUOTE :: rest) []
  = Some (utf16_text s, rest).
Proof.
  intros Hfuel. rewrite escape_units in Hfuel |- *.
  apply (scan_units (length (utf16_units s))); auto using utf16_units_small.
Qed.

(** On Unicode text the encoding loses nothing. *)
Lemma utf16_text_unicode s : unicode_text s -> utf16_text s = s.
Proof.
  unfold utf16_text, utf16_units.
  induction 1 as [|c s Hc _ IH]; [reflexivity|].
  cbn [flat_map]. destruct (N.ltb_spec c 0x10000) as [H|H]; cbn [app].
  - rewrite utf16_join_single, IH; [reflexivity|].
    unfold is_high_surrogate. destruct Hc as [Hc|[Hc _]].
    + apply andb_false_iff; left; apply N.leb_gt; lia.
    + apply andb_false_iff; right; apply N.leb_gt; lia.
  - fold (high_unit (c - 0x10000)). fold (low_unit (c - 0x10000)).
    cbn [utf16_join]. rewrite high_unit_is_high, low_unit_is_low.
    rewrite join_units, IH.
    + f_equal. lia.
    + destruct Hc as [Hc|[_ Hc]]; lia.
Qed.

(** *** Encoded values read back *)

Lemma json_dumps_list items :
  json_dumps (PyList items)
  = match dumps_items items with
    | Raise e => Raise e
    | Return cs => Return (lit "[" ++ join (lit ", ") cs ++ lit "]")
    end.
Proof.
  cbn [json_dumps].
  match goal with |- match ?f items with _ => _ end = _ =>
    assert (E : forall xs, f xs = dumps_items xs)
      by (induction xs as [|x xs IH]; [reflexivity|];
          cbn [dumps_items]; rewrite <- IH; reflexivity);
    now rewrite E
  end.
Qed.

Lemma json_dumps_dict entries :
  json_dumps (PyDict entries)
  = match dumps_entries entries with
    | Raise e => Raise e
    | Return cs => Return (lit "{" ++ join (lit ", ") cs ++ lit "}")
    end.
Proof.
  cbn [json_dumps].
  match goal with |- match ?f entries with _ => _ end = _ =>
    assert (E : forall xs, f xs = dumps_entries xs)
      by (induction xs as [|[k v] xs IH]; [reflexivity|];
          cbn [dumps_entries]; rewrite <- IH; reflexivity);
    now rewrite E
  end.
Qed.

Lemma json_dumps_head o text :
  json_dumps o = Return text -> exists h t, text = h :: t /\ value_start h.
Proof.
  unfold value_start. destruct o as [|s|items|entries|c].
  - intros [= <-]. exists 110, (lit "ull"). auto.
  - intros [= <-]. eexists _, _. split; [reflexivity|auto].
  - rewrite json_dumps_list. destruct (dumps_items items); intros [= <-].
    eexists _, _. split; [reflexivity|auto].
  - rewrite json_dumps_dict. destruct (dumps_entries entries); intros [= <-].
    eexists _, _. split; [reflexivity|auto 6].
  - discriminate.
Qed.

Lemma skip_ws_start h t : value_start h -> skip_ws (h :: t) = h :: t.
Proof. intros [-> | [-> | [-> | ->]]]; reflexivity. Qed.

Lemma parse_encoded_string s fuel rest :
  parse_value (S fuel) (encode_basestring_ascii s ++ rest)
  = Some (JString (utf16_text s), rest).
Proof.
  unfold encode_basestring_ascii. cbn [app]. rewrite <- app_assoc. cbn [app].
  unfold QUOTE at 1. cbn [parse_value].
  rewrite scan_encoded; [reflexivity|].
  rewrite length_app. simpl. lia.
Qed.

Lemma join_start sep h t cs rest :
  value_start h ->
  skip_ws (join sep ((h :: t) :: cs) ++ rest) = join sep ((h :: t) :: cs) ++ rest.
Proof.
  intros Hh. destruct cs; cbn [join app]; now apply skip_ws_start.
Qed.

Lemma elements_last f c v rest :
  parse_value f (c ++ 93 :: rest) = Some (v, 93 :: rest) ->
  parse_elements (S f) (c ++ 93 :: rest) = Some ([v], rest).
Proof. intros H. cbn [parse_elements]. now rewrite H. Qed.

Lemma elements_more f c X v :
  parse_value f (c ++ 44 :: 32 :: X) = Some (v, 44 :: 32 :: X) ->
  skip_ws X = X ->
  parse_elements (S f) (c ++ 44 :: 32 :: X)
  = match parse_elements f X with
    | Some (vs, r) => Some (v :: vs, r)
    | None => None
    end.
Proof.
  intros H HX. cbn [parse_elements]. rewrite H.
  change (skip_ws (44 :: 32 :: X)) with (44 :: 32 :: X). cbv iota.
  change (skip_ws (32 :: X)) with (skip_ws X). now rewrite HX.
Qed.

Lemma dumps_items_length items cs :
  dumps_items items = Return cs -> length cs = length items.
Proof.
  revert cs. induction items as [|x xs IH]; intros cs; cbn [dumps_items].
  - now intros [= <-].
  - destruct (json_dumps x); [|discriminate].
    destruct (dumps_items xs); [|discriminate].
    intros [= <-]. simpl. f_equal. now apply IH.
Qed.

Lemma parse_elements_dumps items :
  Forall reads_back items ->
  forall cs, dumps_items items = Return cs -> items <> [] ->
  forall fuel rest, (items_weight items <= fuel)%nat ->
    parse_elements fuel (join (lit ", ") cs ++ 93 :: rest)
    = Some (map json_of items, rest).
Proof.
  induction 1 as [|x xs Hx _ IH]; intros cs Hd Hne fuel rest Hf; [contradiction|].
  cbn [dumps_items] in Hd.
  destruct (json_dumps x) as [c|] eqn:Ex; [|discriminate].
  destruct (dumps_items xs) as [cs'|] eqn:Exs; [|discriminate].
  injection Hd as <-.
  cbn [items_weight fold_right] in Hf. fold (items_weight xs) in Hf.
  destruct fuel as [|f]; [lia|].
  destruct xs as [|y ys].
  - injection Exs as <-. cbn [join map].
    apply elements_last. apply (Hx _ Ex). lia.
  - pose proof (dumps_items_length _ _ Exs) as Hlen.
    destruct cs' as [|c' cs'']; [discriminate|].
    assert (Hc' : exists h t, c' = h :: t /\ value_start h).
    { cbn [dumps_items] in Exs.
      destruct (json_dumps y) as [cy|] eqn:Ey; [|discriminate].
      destruct (dumps_items ys); [|discriminate].
      injection Exs as <- _. eapply json_dumps_head; eassumption. }
    destruct Hc' as (h & t & -> & Hh).
    change (join (lit ", ") (c :: (h :: t) :: cs''))
      with (c ++ 44 :: 32 :: join (lit ", ") ((h :: t) :: cs'')).
    rewrite <- app_assoc. cbn [app].
    rewrite elements_more with (v := json_of x).
    + rewrite (IH _ eq_refl); [reflexivity|discriminate|lia].
    + apply (Hx _ Ex). lia.
    + now apply join_start.
Qed.

Lemma members_step f k c tail v :
  skip_ws (c ++ tail) = c ++ tail ->
  parse_value f (c ++ tail) = Some (v, tail) ->
  parse_members (S f) ((encode_basestring_ascii k ++ lit ": " ++ c) ++ tail)
  = match skip_ws tail with
    | 44 :: r3 =>
        match parse_members f (skip_ws r3) with
        | Some (ms, r4) => Some ((utf16_text k, v) :: ms, r4)
        | None => None
        end
    | 125 :: r3 => Some ([(utf16_text k, v)], r3)
    | _ => None
    end.
Proof.
  intros Hskip Hv. unfold encode_basestring_ascii.
  change (lit ": ") with [58; 32].
  rewrite <- !app_assoc. cbn [app]. rewrite <- app_assoc. cbn [app].
  unfold QUOTE at 1. cbn [parse_members].
  rewrite scan_encoded by (rewrite length_app; simpl; lia).
  change (skip_ws (58 :: 32 :: c ++ tail)) with (58 :: 32 :: c ++ tail).
  cbv iota.
  change (skip_ws (32 :: c ++ tail)) with (skip_ws (c ++ tail)).
  rewrite Hskip, Hv. reflexivity.
Qed.

Ltac refold_chunk :=
  repeat match goal with
  | |- context [QUOTE :: (flat_map escape_char ?k ++ [QUOTE]) ++ 58 :: 32 :: ?c] =>
      change (QUOTE :: (flat_map escape_char k ++ [QUOTE]) ++ 58 :: 32 :: c)
        with (encode_basestring_ascii k ++ lit ": " ++ c)
  end.

Lemma dumps_entries_length entries cs :
  dumps_entries entries = Return cs -> length cs = length entries.
Proof.
  revert cs. induction entries as [|[k v] xs IH]; intros cs; cbn [dumps_entries].
  - now intros [= <-].
  - destruct (json_dumps v); [|discriminate].
    destruct (dumps_entries xs); [|discriminate].
    intros [= <-]. simpl. f_equal. now apply IH.
Qed.

Lemma parse_members_dumps entries :
  Forall (fun kv => reads_back (snd kv)) entries ->
  forall cs, dumps_entries entries = Return cs -> entries <> [] ->
  forall fuel rest, (entries_weight entries <= fuel)%nat ->
    parse_members fuel (join (lit ", ") cs ++ 125 :: rest)
    = Some (map (fun kv => (utf16_text (fst kv), json_of (snd kv))) entries, rest).
Proof.
  induction 1 as [|[k v] xs Hx _ IH]; intros cs Hd Hne fuel rest Hf;
    [contradiction|].
  cbn [dumps_entries] in Hd. cbn [snd] in Hx.
  destruct (json_dumps v) as [c|] eqn:Ev; [|discriminate].
  destruct (dumps_entries xs) as [cs'|] eqn:Exs; [|discriminate].
  injection Hd as <-.
  cbn [entries_weight fold_right snd] in Hf. fold (entries_weight xs) in Hf.
  destruct fuel as [|f]; [lia|].
  destruct (json_dumps_head _ _ Ev) as (h & t & -> & Hh).
  destruct xs as [|[k' v'] ys].
  - injection Exs as <-. cbn [join map fst snd]. refold_chunk.
    rewrite members_step with (v := json_of v).
    + reflexivity.
    + cbn [app]. now apply skip_ws_start.
    + apply (Hx _ Ev). lia.
  - pose proof (dumps_entries_length _ _ Exs) as Hlen.
    destruct cs' as [|c' cs'']; [discriminate|].
    assert (Hc' : exists t', c' = 34 :: t').
    { cbn [dumps_entries] in Exs.
      destruct (json_dumps v'); [|discriminate].
      destruct (dumps_entries ys); [|discriminate].
      injection Exs as <- _. eexists. reflexivity. }
    destruct Hc' as (t' & ->).
    match goal with |- context [join ?sep (?a :: ?b :: ?l)] =>
      change (join sep (a :: b :: l)) with (a ++ 44 :: 32 :: join sep (b :: l))
    end.
    refold_chunk. rewrite <- (app_assoc _ (44 :: 32 :: _)). cbn [app].
    rewrite members_step with (v := json_of v).
    + change (skip_ws (44 :: 32 :: ?X)) with (44 :: 32 :: X).
      cbv iota.
      match goal with |- context [skip_ws (32 :: ?X)] =>
        change (skip_ws (32 :: X)) with (skip_ws X)
      end.
      rewrite join_start by (unfold value_start; auto).
      rewrite (IH _ eq_refl); [reflexivity|discriminate|lia].
    + cbn [app]. now apply skip_ws_start.
    + apply (Hx _ Ev). lia.
Qed.

Lemma array_open f h t :
  value_start h ->
  parse_value (S f) (91 :: h :: t)
  = match parse_elements f (h :: t) with
    | Some (vs, r) => Some (JArray vs, r)
    | None => None
    end.
Proof. intros [-> | [-> | [-> | ->]]]; reflexivity. Qed.

Lemma object_open f t :
  parse_value (S f) (123 :: 34 :: t)
  = match parse_members f (34 :: t) with
    | Some (ms, r) => Some (JObject ms, r)
    | None => None
    end.
Proof. reflexivity. Qed.

(** Every encoding reads back as the value it encodes. *)
Lemma json_dumps_reads_back o : reads_back o.
Proof.
  induction o as [|s|items IH|entries IH|c] using pyvalue_nested_ind;
    intros text Hd fuel rest Hf.
  - injection Hd as <-. destruct fuel; [simpl in Hf; lia|]. reflexivity.
  - injection Hd as <-. destruct fuel; [simpl in Hf; lia|].
    apply parse_encoded_string.
  - rewrite json_dumps_list in Hd.
    destruct (dumps_items items) as [cs|] eqn:Ecs; [|discriminate].
    injection Hd as <-.
    cbn [weight] in Hf. fold (items_weight items) in Hf.
    destruct fuel as [|f]; [lia|].
    change (lit "[") with [91]. change (lit "]") with [93].
    cbn [app]. rewrite <- app_assoc. cbn [app].
    destruct items as [|x xs].
    + injection Ecs as <-. reflexivity.
    + assert (Hh : exists h t, join (lit ", ") cs = h :: t /\ value_start h).
      { cbn [dumps_items] in Ecs.
        destruct (json_dumps x) as [cx|] eqn:Ex; [|discriminate].
        destruct (dumps_items xs) as [cs'|]; [|discriminate].
        injection Ecs as <-.
        destruct (json_dumps_head _ _ Ex) as (h & t & -> & Hh).
        destruct cs'; cbn [join app]; eauto. }
      destruct Hh as (h & t & Ej & Hh).
      pose proof (parse_elements_dumps _ IH _ Ecs ltac:(discriminate) f rest
                    ltac:(lia)) as Hp.
      rewrite Ej in Hp |- *. cbn [app] in Hp |- *.
      rewrite array_open by assumption. now rewrite Hp.
  - rewrite json_dumps_dict in Hd.
    destruct (dumps_entries entries) as [cs|] eqn:Ecs; [|discriminate].
    injection Hd as <-.
    cbn [weight] in Hf. fold (entries_weight entries) in Hf.
    destruct fuel as [|f]; [lia|].
    change (lit "{") with [123]. change (lit "}") with [125].
    cbn [app]. rewrite <- app_assoc. cbn [app].
    destruct entries as [|[k v] xs].
    + injection Ecs as <-. reflexivity.
    + assert (Hh : exists t, join (lit ", ") cs = 34 :: t).
      { cbn [dumps_entries] in Ecs.
        destruct (json_dumps v) as [cx|]; [|discriminate].
        destruct (dumps_entries xs) as [cs'|]; [|discriminate].
        injection Ecs as <-.
        destruct cs'; cbn [join app]; eauto. }
      destruct Hh as (t & Ej).
      pose proof (parse_members_dumps _ IH _ Ecs ltac:(discriminate) f rest
                    ltac:(lia)) as Hp.
      rewrite Ej in Hp |- *. cbn [app] in Hp |- *.
      rewrite object_open. now rewrite Hp.
  - discriminate.
Qed.

Lemma length_join_more sep (c c' : pystr) cs :
  length (join sep (c :: c' :: cs))
  = (length c + length sep + length (join sep (c' :: cs)))%nat.
Proof. cbn [join]. rewrite !length_app. lia. Qed.

Lemma items_weight_le items :
  Forall (fun x => forall text, json_dumps x = Return text ->
                   (weight x <= length text)%nat) items ->
  forall cs, dumps_items items = Return cs ->
    (items_weight items <= S (length (join (lit ", ") cs)))%nat.
Proof.
  induction 1 as [|x xs Hx _ IH]; intros cs Hd; [simpl; lia|].
  cbn [dumps_items] in Hd.
  destruct (json_dumps x) as [c|] eqn:Ex; [|discriminate].
  destruct (dumps_items xs) as [cs'|] eqn:Exs; [|discriminate].
  injection Hd as <-.
  cbn [items_weight fold_right]. fold (items_weight xs).
  specialize (Hx _ eq_refl). specialize (IH _ eq_refl).
  pose proof (dumps_items_length _ _ Exs) as Hlen.
  destruct cs' as [|c' cs''].
  - destruct xs; [|discriminate]. simpl. lia.
  - rewrite length_join_more. change (length (lit ", ")) with 2%nat. lia.
Qed.

Lemma entries_weight_le entries :
  Forall (fun kv => forall text, json_dumps (snd kv) = Return text ->
                    (weight (snd kv) <= length text)%nat) entries ->
  forall cs, dumps_entries entries = Return cs ->
    (entries_weight entries <= S (length (join (lit ", ") cs)))%nat.
Proof.
  induction 1 as [|[k v] xs Hx _ IH]; intros cs Hd; [simpl; lia|].
  cbn [dumps_entries] in Hd. cbn [snd] in Hx.
  destruct (json_dumps v) as [c|] eqn:Ev; [|discriminate].
  destruct (dumps_entries xs) as [cs'|] eqn:Exs; [|discriminate].
  injection Hd as <-.
  cbn [entries_weight fold_right snd]. fold (entries_weight xs).
  specialize (Hx _ eq_refl). specialize (IH _ eq_refl).
  pose proof (dumps_entries_length _ _ Exs) as Hlen.
  destruct cs' as [|c' cs''].
  - destruct xs; [|discriminate]. cbn [join length].
    rewrite ?length_app. cbn [length]. change (entries_weight []) with O. lia.
  - rewrite length_join_more. change (length (lit ", ")) with 2%nat.
    cbn [length]. rewrite ?length_app. cbn [length]. lia.
Qed.

Lemma weight_le_length o :
  forall text, json_dumps o = Return text -> (weight o <= length text)%nat.
Proof.
  induction o as [|s|items IH|entries IH|c] using pyvalue_nested_ind;
    intros text Hd.
  - injection Hd as <-. simpl. lia.
  - injection Hd as <-. simpl. lia.
  - rewrite json_dumps_list in Hd.
    destruct (dumps_items items) as [cs|] eqn:Ecs; [|discriminate].
    injection Hd as <-.
    pose proof (items_weight_le _ IH _ Ecs).
    cbn [weight]. fold (items_weight items).
    cbn [length app]. rewrite ?length_app.
    change (length (lit "]")) with 1%nat. change (length (lit "}")) with 1%nat.
    lia.
  - rewrite json_dumps_dict in Hd.
    destruct (dumps_entries entries) as [cs|] eqn:Ecs; [|discriminate].
    injection Hd as <-.
    pose proof (entries_weight_le _ IH _ Ecs).
    cbn [weight]. fold (entries_weight entries).
    cbn [length app]. rewrite ?length_app.
    change (length (lit "]")) with 1%nat. change (length (lit "}")) with 1%nat.
    lia.
  - discriminate.
Qed.

(** [json.loads(json.dumps(o) + ws)] succeeds and returns [json_of o]. *)
Lemma json_loads_dumps o text ws :
  json_dumps o = Return text -> skip_ws ws = [] ->
  json_loads (text ++ ws) = Some (json_of o).
Proof.
  intros Hd Hws. unfold json_loads.
  pose proof (weight_le_length _ _ Hd) as Hw.
  destruct (json_dumps_head _ _ Hd) as (h & t & E & Hh).
  assert (Hskip : skip_ws (text ++ ws) = text ++ ws).
  { rewrite E. cbn [app]. now apply skip_ws_start. }
  rewrite Hskip.
  rewrite (json_dumps_reads_back o _ Hd) by (rewrite length_app; lia).
  now rewrite Hws.
Qed.

(** ** The script, one outcome at a time *)

Lemma json_dumps_member k v :
  json_dumps (PyDict [(k, v)])
  = match json_dumps v with
    | Raise e => Raise e
    | Return c => Return (object1 k c)
    end.
Proof.
  rewrite json_dumps_dict. cbn [dumps_entries].
  destruct (json_dumps v); reflexivity.
Qed.

Lemma json_dumps_message k s :
  json_dumps (PyDict [(k, PyStr s)])
  = Return (object1 k (encode_basestring_ascii s)).
Proof. now rewrite json_dumps_member. Qed.

(** What [transcribe_audio] does, by what the environment answers. *)
Lemma transcribe_audio_run W f l :
  transcribe_audio W f l started
  = if path_exists W f then
      match load_model W MODEL_SIZE with
      | Raise e => failed e [OsPathExists f; WhisperLoadModel MODEL_SIZE]
      | Return m =>
          match transcribe m f USE_FP16 l with
          | Raise e => failed e (calls_upto_transcribe f l)
          | Return r =>
              match getitem r (lit "text") with
              | Raise e => failed e (calls_upto_transcribe f l)
              | Return v =>
                  match json_dumps v with
                  | Raise e => failed e (calls_upto_transcribe f l)
                  | Return c =>
                      (Normal tt,
                       mkProcess (object1 (lit "transcription") c ++ [10]) []
                                 (calls_upto_transcribe f l))
                  end
              end
          end
      end
    else (Exited 1,
          mkProcess [] (error_report (not_found_message f)) [OsPathExists f]).
Proof.
  unfold transcribe_audio, os_path_exists, whisper_load_model, model_transcribe,
    try_except, failed, error_report.
  unfold bind at 1 2. unfold record at 1, ret at 1, started. cbn [stdout stderr calls app].
  destruct (path_exists W f); cbn [negb].
  - unfold ret at 1. unfold bind, record, lift. cbn [stdout stderr calls app].
    destruct (load_model W MODEL_SIZE) as [m|e].
    + destruct (transcribe m f USE_FP16 l) as [r|e].
      * destruct (getitem r (lit "text")) as [v|e].
        -- rewrite json_dumps_member.
           destruct (json_dumps v) as [c|e].
           ++ reflexivity.
           ++ rewrite json_dumps_message. reflexivity.
        -- rewrite json_dumps_message. reflexivity.
      * rewrite json_dumps_message. reflexivity.
    + rewrite json_dumps_message. reflexivity.
  - unfold bind, lift. rewrite json_dumps_message. reflexivity.
Qed.

Lemma parse_args_nil nd : parse_args nd [] = ErrorExit RequiredArgument.
Proof. reflexivity. Qed.

(** Once the command line is parsed, [__main__] is the call of
    [transcribe_audio]. *)
Lemma main_namespace W f l :
  parse_args (unicode_digit W) (args W) = Namespace f l ->
  main W started = transcribe_audio W f l started.
Proof.
  intros H. unfold main, parser_parse_args.
  destruct (args W) as [|a rest] eqn:E.
  - rewrite parse_args_nil in H. discriminate.
  - rewrite H. reflexivity.
Qed.

Lemma run_no_arguments W :
  args W = [] -> run W = (ExitCode 1, mkProcess [] (format_help W) []).
Proof. intros H. unfold run, main. rewrite H. reflexivity. Qed.

Lemma run_help W :
  args W <> [] -> parse_args (unicode_digit W) (args W) = HelpExit ->
  run W = (ExitCode 0, mkProcess (format_help W) [] []).
Proof.
  intros Hne H. unfold run, main, parser_parse_args. rewrite H.
  destruct (args W); [contradiction|]. reflexivity.
Qed.

Lemma run_usage_error W e :
  args W <> [] -> parse_args (unicode_digit W) (args W) = ErrorExit e ->
  run W = (ExitCode 2,
           mkProcess []
             (format_usage W
                ++ prog W ++ lit ": error: " ++ error_message W e ++ [10])
             []).
Proof.
  intros Hne H. unfold run, main, parser_parse_args. rewrite H.
  destruct (args W); [contradiction|]. reflexivity.
Qed.

(** ** The reports are JSON, the usage text is not *)

Lemma object1_loads k v c :
  json_dumps v = Return c ->
  json_loads (object1 k c ++ [10]) = Some (JObject [(utf16_text k, json_of v)]).
Proof.
  intros H.
  apply (json_loads_dumps (PyDict [(k, v)])); [|reflexivity].
  now rewrite json_dumps_member, H.
Qed.

Lemma error_report_loads message :
  json_loads (error_report message)
  = Some (JObject [(lit "error", JString (utf16_text message))]).
Proof.
  unfold error_report.
  now rewrite (object1_loads (lit "error") (PyStr message)).
Qed.

Lemma transcription_loads t :
  json_loads (object1 (lit "transcription") (encode_basestring_ascii t) ++ [10])
  = Some (JObject [(lit "transcription", JString (utf16_text t))]).
Proof. now rewrite (object1_loads (lit "transcription") (PyStr t)). Qed.

Lemma usage_not_json body : json_loads (lit "usage: " ++ body) = None.
Proof. reflexivity. Qed.

Lemma reports_differ e f :
  error_report (error_message_of e) <> error_report (not_found_message f).
Proof.
  unfold error_report, object1, error_message_of, not_found_message,
    encode_basestring_ascii.
  intros H. vm_compute in H. discriminate H.
Qed.

Lemma run_namespace W f l :
  parse_args (unicode_digit W) (args W) = Namespace f l ->
  run W
  = match transcribe_audio W f l started with
    | (Normal _, p) => (ExitCode 0, p)
    | (Exited code, p) => (ExitCode code, p)
    | (Raised e, p) => (Uncaught e, p)
    end.
Proof. intros H. unfold run. now rewrite (main_namespace W f l H). Qed.

(** ** Command lines that argparse accepts *)

Lemma parse_optional_plain nd a :
  startswith a (lit "-") = false -> parse_optional nd a = Positional.
Proof.
  destruct a as [|c a']; [reflexivity|].
  cbn [startswith lit map list_ascii_of_string]. rewrite andb_true_r.
  intros H. unfold parse_optional.
  change (N_of_ascii "-") with 45 in H. now rewrite H.
Qed.

Lemma not_dashes a :
  startswith a (lit "-") = false -> pystr_eqb a (lit "--") = false.
Proof.
  destruct a as [|c a']; [reflexivity|].
  cbn [startswith lit map list_ascii_of_string]. rewrite andb_true_r.
  change (N_of_ascii "-") with 45. intros H.
  change (lit "--") with [45; 45]. cbn [pystr_eqb]. now rewrite H.
Qed.

(** [transcribe.py FILE] *)
Lemma parse_args_file nd f :
  startswith f (lit "-") = false -> parse_args nd [f] = Namespace f PyNone.
Proof.
  intros Hf. unfold parse_args. cbn [classify].
  rewrite (not_dashes f Hf), (parse_optional_plain nd f Hf). reflexivity.
Qed.

(** [transcribe.py FILE -l CODE] *)
Lemma parse_args_language nd f code :
  startswith f (lit "-") = false -> startswith code (lit "-") = false ->
  parse_args nd [f; lit "-l"; code] = Namespace f (PyStr code).
Proof.
  intros Hf Hc. unfold parse_args. cbn [classify].
  rewrite (not_dashes f Hf), (parse_optional_plain nd f Hf).
  change (pystr_eqb (lit "-l") (lit "--")) with false.
  change (parse_optional nd (lit "-l"))
    with (Optional (Some StoreLanguage) (lit "-l") None).
  rewrite (not_dashes code Hc), (parse_optional_plain nd code Hc).
  cbn [map consume existsb is_option orb negb].
  unfold get_value. now rewrite (not_dashes code Hc).
Qed.

(** No run ends on an exception nobody caught. *)
Lemma never_uncaught W e : exit_status W <> Uncaught e.
Proof.
  destruct (args W) as [|a rest] eqn:Ea.
  { unfold exit_status. rewrite (run_no_arguments W Ea). discriminate. }
  assert (Hne : args W <> []) by (rewrite Ea; discriminate).
  destruct (parse_args (unicode_digit W) (args W)) as [f l| |e'] eqn:Hp.
  - unfold exit_status. rewrite (run_namespace _ _ _ Hp), transcribe_audio_run.
    destruct (path_exists W f); [|discriminate].
    destruct (load_model W MODEL_SIZE) as [m|e1]; [|discriminate].
    destruct (transcribe m f USE_FP16 l) as [r|e1]; [|discriminate].
    destruct (getitem r (lit "text")) as [v|e1]; [|discriminate].
    destruct (json_dumps v) as [c|e1]; discriminate.
  - unfold exit_status. rewrite (run_help W Hne Hp). discriminate.
  - unfold exit_status. rewrite (run_usage_error W e' Hne Hp). discriminate.
Qed.

(** * The properties of the specification *)

Ltac scalar :=
  first [ left; reflexivity
        | right; split; [intros H; discriminate H | reflexivity] ].

Ltac unicode := unfold unicode_text; repeat (constructor; [scalar|]); constructor.

Ltac run_with H :=
  unfold exit_status, output;
  rewrite (run_namespace _ _ _ H), transcribe_audio_run.

(** C1: with an existing audio file that the model transcribes and no
    language flag, the process exits with code 0, stdout holds exactly the
    one-key JSON object [{"transcription": text}] made from the text field
    of the model result, whatever else the result carries, and stderr stays
    empty. *)
Theorem transcription_without_language W f m r t :
  parse_args (unicode_digit W) (args W) = Namespace f PyNone ->
  path_exists W f = true ->
  load_model W MODEL_SIZE = Return m ->
  transcribe m f USE_FP16 PyNone = Return r ->
  dict_get r (lit "text") = Some (PyStr t) ->
  unicode_text t ->
  exit_status W = ExitCode 0
  /\ stdout (output W)
     = object1 (lit "transcription") (encode_basestring_ascii t) ++ [10]
  /\ json_loads (stdout (output W))
     = Some (JObject [(lit "transcription", JString t)])
  /\ stderr (output W) = [].
Proof.
  intros Hp He Hm Ht Hr Hu. run_with Hp.
  unfold getitem. rewrite He, Hm, Ht, Hr. cbn [json_dumps fst snd stdout stderr].
  rewrite transcription_loads, (utf16_text_unicode t Hu). auto.
Qed.

Lemma transcription_without_language_sample :
  exit_status (Sample.world [lit "audio.wav"]) = ExitCode 0
  /\ stdout (output (Sample.world [lit "audio.wav"]))
     = object1 (lit "transcription") (encode_basestring_ascii Sample.hola) ++ [10]
  /\ json_loads (stdout (output (Sample.world [lit "audio.wav"])))
     = Some (JObject [(lit "transcription", JString Sample.hola)])
  /\ stderr (output (Sample.world [lit "audio.wav"])) = [].
Proof.
  apply (transcription_without_language (Sample.world [lit "audio.wav"])
           (lit "audio.wav") Sample.model Sample.result_es Sample.hola);
    [reflexivity | reflexivity | reflexivity | reflexivity | reflexivity | unicode].
Defined.

(** C2: when the audio file does not exist, the process exits with code 1,
    stderr holds a JSON object with the key "error", and stdout stays
    empty. *)
Theorem missing_file_reported W f l :
  parse_args (unicode_digit W) (args W) = Namespace f l ->
  path_exists W f = false ->
  exit_status W = ExitCode 1
  /\ stderr (output W) = error_report (not_found_message f)
  /\ json_loads (stderr (output W))
     = Some (JObject [(lit "error", JString (utf16_text (not_found_message f)))])
  /\ stdout (output W) = [].
Proof.
  intros Hp He. run_with Hp. rewrite He. cbn [fst snd stdout stderr].
  rewrite error_report_loads. auto.
Qed.

Lemma missing_file_reported_sample :
  exit_status (Sample.world [lit "missing.wav"]) = ExitCode 1
  /\ stderr (output (Sample.world [lit "missing.wav"]))
     = error_report (not_found_message (lit "missing.wav"))
  /\ json_loads (stderr (output (Sample.world [lit "missing.wav"])))
     = Some (JObject [(lit "error",
                       JString (utf16_text (not_found_message (lit "missing.wav"))))])
  /\ stdout (output (Sample.world [lit "missing.wav"])) = [].
Proof.
  apply (missing_file_reported (Sample.world [lit "missing.wav"])
           (lit "missing.wav") PyNone);
    [reflexivity | reflexivity].
Defined.

(** C3: an exception raised while the model is loaded or while it
    transcribes is caught: the process ends with exit code 1, not on the
    exception, and stderr holds the JSON error object made from it. *)
Theorem model_failure_reported W f l e :
  parse_args (unicode_digit W) (args W) = Namespace f l ->
  path_exists W f = true ->
  (load_model W MODEL_SIZE = Raise e
   \/ exists m, load_model W MODEL_SIZE = Return m
                /\ transcribe m f USE_FP16 l = Raise e) ->
  exit_status W = ExitCode 1
  /\ stderr (output W) = error_report (error_message_of e)
  /\ json_loads (stderr (output W))
     = Some (JObject [(lit "error", JString (utf16_text (error_message_of e)))])
  /\ stdout (output W) = [].
Proof.
  intros Hp He Hfail. run_with Hp. rewrite He.
  destruct Hfail as [Hl | (m & Hl & Ht)]; rewrite Hl; [|rewrite Ht];
    unfold failed; cbn [fst snd stdout stderr];
    rewrite error_report_loads; auto.
Qed.

Lemma model_failure_reported_sample :
  exit_status (Sample.world [lit "recordings"]) = ExitCode 1
  /\ stderr (output (Sample.world [lit "recordings"]))
     = error_report
         (error_message_of
            (mkException (lit "RuntimeError")
               (lit "Failed to load audio: recordings")))
  /\ json_loads (stderr (output (Sample.world [lit "recordings"])))
     = Some (JObject
               [(lit "error",
                 JString
                   (utf16_text
                      (error_message_of
                         (mkException (lit "RuntimeError")
                            (lit "Failed to load audio: recordings")))))])
  /\ stdout (output (Sample.world [lit "recordings"])) = [].
Proof.
  apply (model_failure_reported (Sample.world [lit "recordings"])
           (lit "recordings") PyNone);
    [reflexivity | reflexivity |].
  right. exists Sample.model. split; reflexivity.
Defined.

(** C4, as the code has it, on the runs this model describes (the streams
    accept what is written, the library calls return or raise an
    [Exception]): the exit code is 0 when the transcription is printed and
    when argparse prints the help, 2 when argparse rejects the command
    line, and 1 otherwise: without any argument, when the file is missing,
    and when the model or the reporting of its result fails.  On these runs
    no other exit code occurs. *)
Theorem exit_code_by_case W :
  (exit_status W = ExitCode 0 \/ exit_status W = ExitCode 1
   \/ exit_status W = ExitCode 2)
  /\ (exit_status W = ExitCode 2 <->
      args W <> []
      /\ exists e, parse_args (unicode_digit W) (args W) = ErrorExit e)
  /\ (exit_status W = ExitCode 0 <->
      args W <> []
      /\ (parse_args (unicode_digit W) (args W) = HelpExit
          \/ exists f l c,
               parse_args (unicode_digit W) (args W) = Namespace f l
               /\ path_exists W f = true
               /\ transcription W f l = Return c)).
Proof.
  assert (Hcase : forall (code : Z) (X Y : Prop),
    (code = 0 /\ ~ X /\ Y \/ code = 1 /\ ~ X /\ ~ Y \/ code = 2 /\ X /\ ~ Y)%Z ->
    (ExitCode code = ExitCode 0 \/ ExitCode code = ExitCode 1
     \/ ExitCode code = ExitCode 2)
    /\ (ExitCode code = ExitCode 2 <-> X)
    /\ (ExitCode code = ExitCode 0 <-> Y)).
  { intros code X Y [(-> & HX & HY) | [(-> & HX & HY) | (-> & HX & HY)]];
      (split; [auto|split; split; intros H; try discriminate H;
                    try reflexivity; try assumption; try contradiction]). }
  destruct (args W) as [|a rest] eqn:Ea.
  { unfold exit_status. rewrite (run_no_arguments W Ea). cbn [fst].
    apply Hcase. right; left.
    repeat split; intros [Hne _]; now apply Hne. }
  assert (Hne : args W <> []) by (rewrite Ea; discriminate).
  rewrite <- Ea.
  destruct (parse_args (unicode_digit W) (args W)) as [f l| |e] eqn:Hp.
  - unfold exit_status, transcription.
    rewrite (run_namespace _ _ _ Hp), transcribe_audio_run.
    destruct (path_exists W f) eqn:He.
    + destruct (load_model W MODEL_SIZE) as [m|e1] eqn:Hm;
        [destruct (transcribe m f USE_FP16 l) as [r|e1] eqn:Ht;
          [destruct (getitem r (lit "text")) as [v|e1] eqn:Hr;
            [destruct (json_dumps v) as [c|e1] eqn:Hv|]|]|];
        unfold failed; cbn [fst]; apply Hcase.
      * left. repeat split.
        -- intros (_ & e & H). discriminate H.
        -- assumption.
        -- right. exists f, l, c. now rewrite Ht, Hr, Hv.
      * right; left. repeat split.
        -- intros (_ & e & H). discriminate H.
        -- intros (_ & [H | (? & ? & ? & [= <- <-] & _ & H)]);
             [discriminate H|]. rewrite Ht, Hr, Hv in H. discriminate H.
      * right; left. repeat split.
        -- intros (_ & e & H). discriminate H.
        -- intros (_ & [H | (? & ? & ? & [= <- <-] & _ & H)]);
             [discriminate H|]. rewrite Ht, Hr in H. discriminate H.
      * right; left. repeat split.
        -- intros (_ & e & H). discriminate H.
        -- intros (_ & [H | (? & ? & ? & [= <- <-] & _ & H)]);
             [discriminate H|]. rewrite Ht in H. discriminate H.
      * right; left. repeat split.
        -- intros (_ & e & H). discriminate H.
        -- intros (_ & [H | (? & ? & ? & _ & _ & H)]); discriminate H.
    + cbn [fst]. apply Hcase. right; left. repeat split.
      * intros (_ & e & H). discriminate H.
      * intros (_ & [H | (? & ? & ? & [= <- <-] & H & _)]);
          [discriminate H|]. rewrite He in H. discriminate H.
  - unfold exit_status. rewrite (run_help W Hne Hp). cbn [fst].
    apply Hcase. left. repeat split.
    + intros (_ & e & H). discriminate H.
    + assumption.
    + now left.
  - unfold exit_status. rewrite (run_usage_error W e Hne Hp). cbn [fst].
    apply Hcase. right; right. repeat split.
    + assumption.
    + now exists e.
    + intros (_ & [H | (? & ? & ? & H & _)]); discriminate H.
Qed.

(** C4 as stated fails: with a language but no audio file, argparse rejects
    the command line and the exit code is 2. *)
Lemma usage_error_exits_with_two :
  exit_status (Sample.world [lit "-l"; lit "en"]) = ExitCode 2
  /\ exit_status (Sample.world [lit "-l"; lit "en"]) <> ExitCode 0
  /\ exit_status (Sample.world [lit "-l"; lit "en"]) <> ExitCode 1.
Proof. repeat split; vm_compute; discriminate. Qed.

(** C5, as the code has it: on every run whose command line argparse
    accepts and whose streams accept what is written, a run that ends with
    exit code 0 leaves on stdout a single JSON object with the key
    "transcription" and nothing on stderr, and a run that ends otherwise
    leaves on stderr a single JSON object with the key "error" and nothing
    on stdout.  (Runs that argparse ends print its usage or help text.) *)
Theorem reports_are_json W f l :
  parse_args (unicode_digit W) (args W) = Namespace f l ->
  (exit_status W = ExitCode 0 ->
     (exists v, json_loads (stdout (output W))
                = Some (JObject [(lit "transcription", v)]))
     /\ stderr (output W) = [])
  /\ (exit_status W <> ExitCode 0 ->
     (exists message, json_loads (stderr (output W))
                      = Some (JObject [(lit "error", JString message)]))
     /\ stdout (output W) = []).
Proof.
  intros Hp. run_with Hp.
  assert (Hfail : forall e cs,
    (fst (match failed e cs with
          | (Normal _, p) => (ExitCode 0, p)
          | (Raised e', p) => (Uncaught e', p)
          | (Exited code, p) => (ExitCode code, p)
          end) = ExitCode 0 -> False)
    /\ (exists message,
          json_loads (stderr (snd (match failed e cs with
                                   | (Normal _, p) => (ExitCode 0, p)
                                   | (Raised e', p) => (Uncaught e', p)
                                   | (Exited code, p) => (ExitCode code, p)
                                   end)))
          = Some (JObject [(lit "error", JString message)]))
    /\ stdout (snd (match failed e cs with
                    | (Normal _, p) => (ExitCode 0, p)
                    | (Raised e', p) => (Uncaught e', p)
                    | (Exited code, p) => (ExitCode code, p)
                    end)) = []).
  { intros e cs. unfold failed. cbn [fst snd stdout stderr].
    split; [discriminate|]. split; [|reflexivity].
    eexists. apply error_report_loads. }
  destruct (path_exists W f).
  - destruct (load_model W MODEL_SIZE) as [m|e];
      [destruct (transcribe m f USE_FP16 l) as [r|e];
        [destruct (getitem r (lit "text")) as [v|e];
          [destruct (json_dumps v) as [c|e] eqn:Hv|]|]|];
      try (destruct (Hfail e [OsPathExists f; WhisperLoadModel MODEL_SIZE])
             as (H0 & H1 & H2);
           destruct (Hfail e (calls_upto_transcribe f l)) as (G0 & G1 & G2);
           split; [intros H; exfalso; auto | intros _; auto]).
    cbn [fst snd stdout stderr]. split.
    + intros _. split; [|reflexivity].
      exists (json_of v). now apply object1_loads.
    + intros H. now elim H.
  - cbn [fst snd stdout stderr]. split; [discriminate|].
    intros _. split; [|reflexivity]. eexists. apply error_report_loads.
Qed.

Lemma reports_are_json_sample :
  (exit_status (Sample.world [lit "tensor.wav"]) = ExitCode 0 ->
     (exists v, json_loads (stdout (output (Sample.world [lit "tensor.wav"])))
                = Some (JObject [(lit "transcription", v)]))
     /\ stderr (output (Sample.world [lit "tensor.wav"])) = [])
  /\ (exit_status (Sample.world [lit "tensor.wav"]) <> ExitCode 0 ->
     (exists message,
        json_loads (stderr (output (Sample.world [lit "tensor.wav"])))
        = Some (JObject [(lit "error", JString message)]))
     /\ stdout (output (Sample.world [lit "tensor.wav"])) = []).
Proof.
  apply (reports_are_json (Sample.world [lit "tensor.wav"])
           (lit "tensor.wav") PyNone).
  reflexivity.
Defined.

(** C5 as stated fails: without arguments the run fails with exit code 1
    and stderr holds the help text, which is not JSON; with [-h] the run
    ends with exit code 0 and stdout holds the same text. *)
Lemma usage_text_is_not_json :
  exit_status (Sample.world []) = ExitCode 1
  /\ json_loads (stderr (output (Sample.world []))) = None
  /\ exit_status (Sample.world [lit "-h"]) = ExitCode 0
  /\ json_loads (stdout (output (Sample.world [lit "-h"]))) = None.
Proof. repeat split; vm_compute; reflexivity. Qed.

(** C6: invoked with no command-line argument at all, the program prints
    the usage information of argparse to stderr and exits with code 1. *)
Theorem no_arguments_prints_usage W :
  args W = [] ->
  exit_status W = ExitCode 1
  /\ stderr (output W) = format_help W
  /\ startswith (stderr (output W)) (lit "usage: ") = true
  /\ stdout (output W) = []
  /\ calls (output W) = [].
Proof.
  intros H. unfold exit_status, output. rewrite (run_no_arguments W H).
  cbn [fst snd stdout stderr calls]. repeat split; reflexivity.
Qed.

Lemma no_arguments_prints_usage_sample :
  exit_status (Sample.world []) = ExitCode 1
  /\ stderr (output (Sample.world [])) = format_help (Sample.world [])
  /\ startswith (stderr (output (Sample.world []))) (lit "usage: ") = true
  /\ stdout (output (Sample.world [])) = []
  /\ calls (output (Sample.world [])) = [].
Proof. apply (no_arguments_prints_usage (Sample.world [])). reflexivity. Defined.

(** C7: the existence check comes before any model operation.  The calls
    of a run are none at all (argparse ended it), or they start with the
    check of the parsed path; when that path does not exist nothing follows,
    and otherwise the model is loaded and, unless loading failed, asked to
    transcribe that path. *)
Theorem existence_check_first W :
  calls (output W) = []
  \/ exists f l,
       parse_args (unicode_digit W) (args W) = Namespace f l
       /\ if path_exists W f
          then calls (output W) = [OsPathExists f; WhisperLoadModel MODEL_SIZE]
               \/ calls (output W) = calls_upto_transcribe f l
          else calls (output W) = [OsPathExists f].
Proof.
  destruct (args W) as [|a rest] eqn:Ea.
  { left. unfold output. now rewrite (run_no_arguments W Ea). }
  assert (Hne : args W <> []) by (rewrite Ea; discriminate).
  rewrite <- Ea.
  destruct (parse_args (unicode_digit W) (args W)) as [f l| |e] eqn:Hp.
  - right. exists f, l. split; [reflexivity|].
    unfold output. rewrite (run_namespace _ _ _ Hp), transcribe_audio_run.
    destruct (path_exists W f); [|reflexivity].
    destruct (load_model W MODEL_SIZE) as [m|e]; [|now left].
    right.
    destruct (transcribe m f USE_FP16 l) as [r|e]; [|reflexivity].
    destruct (getitem r (lit "text")) as [v|e]; [|reflexivity].
    destruct (json_dumps v) as [c|e]; reflexivity.
  - left. unfold output. now rewrite (run_help W Hne Hp).
  - left. unfold output. now rewrite (run_usage_error W e Hne Hp).
Qed.

(** C8, as the code has it: the wrapper does not validate a language code.
    Whatever string argparse stored as the language reaches
    [model.transcribe] unchanged.  When the model transcribes the file with
    it, the outcome has the shape of the run without the flag: exit code 0
    and the one-key "transcription" object on stdout; when the model
    rejects it, the run ends like any model failure, with exit code 1 and
    the JSON error object on stderr. *)
Theorem language_not_validated W f code m :
  parse_args (unicode_digit W) (args W) = Namespace f (PyStr code) ->
  path_exists W f = true ->
  load_model W MODEL_SIZE = Return m ->
  calls (output W)
  = [OsPathExists f; WhisperLoadModel MODEL_SIZE;
     ModelTranscribe f USE_FP16 (PyStr code)]
  /\ (forall r t,
        transcribe m f USE_FP16 (PyStr code) = Return r ->
        dict_get r (lit "text") = Some (PyStr t) ->
        unicode_text t ->
        exit_status W = ExitCode 0
        /\ stdout (output W)
           = object1 (lit "transcription") (encode_basestring_ascii t) ++ [10]
        /\ json_loads (stdout (output W))
           = Some (JObject [(lit "transcription", JString t)])
        /\ stderr (output W) = [])
  /\ (forall e,
        transcribe m f USE_FP16 (PyStr code) = Raise e ->
        exit_status W = ExitCode 1
        /\ stderr (output W) = error_report (error_message_of e)
        /\ stdout (output W) = []).
Proof.
  intros Hp He Hm. run_with Hp. rewrite He, Hm.
  split; [|split].
  - destruct (transcribe m f USE_FP16 (PyStr code)) as [r|e]; [|reflexivity].
    destruct (getitem r (lit "text")) as [v|e]; [|reflexivity].
    destruct (json_dumps v) as [c|e]; reflexivity.
  - intros r t Ht Hr Hu. unfold getitem. rewrite Ht, Hr.
    cbn [json_dumps fst snd stdout stderr].
    rewrite transcription_loads, (utf16_text_unicode t Hu). auto.
  - intros e Ht. rewrite Ht. unfold failed. cbn [fst snd stdout stderr]. auto.
Qed.

Lemma language_not_validated_sample :
  calls (output (Sample.world [lit "audio.wav"; lit "-l"; lit "es"]))
  = [OsPathExists (lit "audio.wav"); WhisperLoadModel MODEL_SIZE;
     ModelTranscribe (lit "audio.wav") USE_FP16 (PyStr (lit "es"))]
  /\ (forall r t,
        transcribe Sample.model (lit "audio.wav") USE_FP16 (PyStr (lit "es"))
        = Return r ->
        dict_get r (lit "text") = Some (PyStr t) ->
        unicode_text t ->
        exit_status (Sample.world [lit "audio.wav"; lit "-l"; lit "es"])
        = ExitCode 0
        /\ stdout (output (Sample.world [lit "audio.wav"; lit "-l"; lit "es"]))
           = object1 (lit "transcription") (encode_basestring_ascii t) ++ [10]
        /\ json_loads
             (stdout (output (Sample.world [lit "audio.wav"; lit "-l"; lit "es"])))
           = Some (JObject [(lit "transcription", JString t)])
        /\ stderr (output (Sample.world [lit "audio.wav"; lit "-l"; lit "es"]))
           = [])
  /\ (forall e,
        transcribe Sample.model (lit "audio.wav") USE_FP16 (PyStr (lit "es"))
        = Raise e ->
        exit_status (Sample.world [lit "audio.wav"; lit "-l"; lit "es"])
        = ExitCode 1
        /\ stderr (output (Sample.world [lit "audio.wav"; lit "-l"; lit "es"]))
           = error_report (error_message_of e)
        /\ stdout (output (Sample.world [lit "audio.wav"; lit "-l"; lit "es"]))
           = []).
Proof.
  apply (language_not_validated
           (Sample.world [lit "audio.wav"; lit "-l"; lit "es"])
           (lit "audio.wav") (lit "es") Sample.model);
    reflexivity.
Defined.

(** C8 as stated fails on three counts: a code that starts with a dash is
    refused by argparse after [-l] (exit code 2); the code [--] given as
    [--language=--] reaches the model as an empty list; and a code the
    model does not know ends the run with exit code 1 and nothing on
    stdout. *)
Lemma language_refused_or_altered :
  exit_status (Sample.world [lit "audio.wav"; lit "-l"; lit "-x"]) = ExitCode 2
  /\ calls (output (Sample.world [lit "audio.wav"; lit "--language=--"]))
     = [OsPathExists (lit "audio.wav"); WhisperLoadModel MODEL_SIZE;
        ModelTranscribe (lit "audio.wav") USE_FP16 (PyList [])]
  /\ exit_status (Sample.world [lit "audio.wav"; lit "-l"; lit "zz"]) = ExitCode 1
  /\ stdout (output (Sample.world [lit "audio.wav"; lit "-l"; lit "zz"])) = [].
Proof. repeat split; vm_compute; reflexivity. Qed.

(** C9: the statement that prints the result is inside the [try]: when the
    model has returned and the result has no "text" entry, or its text
    cannot be serialized, the exception is reported like any other: a JSON
    error object on stderr and exit code 1. *)
Theorem output_step_guarded W f l m r e :
  parse_args (unicode_digit W) (args W) = Namespace f l ->
  path_exists W f = true ->
  load_model W MODEL_SIZE = Return m ->
  transcribe m f USE_FP16 l = Return r ->
  (getitem r (lit "text") = Raise e
   \/ exists v, getitem r (lit "text") = Return v
                /\ json_dumps (PyDict [(lit "transcription", v)]) = Raise e) ->
  exit_status W = ExitCode 1
  /\ stderr (output W) = error_report (error_message_of e)
  /\ json_loads (stderr (output W))
     = Some (JObject [(lit "error", JString (utf16_text (error_message_of e)))])
  /\ stdout (output W) = [].
Proof.
  intros Hp He Hm Ht Hfail. run_with Hp. rewrite He, Hm, Ht.
  destruct Hfail as [Hr | (v & Hr & Hv)]; rewrite Hr.
  - unfold failed. cbn [fst snd stdout stderr].
    rewrite error_report_loads. auto.
  - rewrite json_dumps_member in Hv.
    destruct (json_dumps v) as [c|e']; [discriminate|].
    injection Hv as ->.
    unfold failed. cbn [fst snd stdout stderr].
    rewrite error_report_loads. auto.
Qed.

Lemma output_step_guarded_sample :
  exit_status (Sample.world [lit "no_text.wav"]) = ExitCode 1
  /\ stderr (output (Sample.world [lit "no_text.wav"]))
     = error_report
         (error_message_of (mkException (lit "KeyError") (lit "'text'")))
  /\ json_loads (stderr (output (Sample.world [lit "no_text.wav"])))
     = Some (JObject
               [(lit "error",
                 JString
                   (utf16_text
                      (error_message_of
                         (mkException (lit "KeyError") (lit "'text'")))))])
  /\ stdout (output (Sample.world [lit "no_text.wav"])) = [].
Proof.
  apply (output_step_guarded (Sample.world [lit "no_text.wav"])
           (lit "no_text.wav") PyNone Sample.model
           [(lit "language", PyStr (lit "es"))]);
    [reflexivity | reflexivity | reflexivity | reflexivity |].
  left. reflexivity.
Defined.

(** C10: the file-not-found report is for paths that do not exist.  A path
    that exists, whatever it is, passes the check and is handed to the
    model; stderr never holds the file-not-found report, and a run that
    fails holds there the generic report of the exception raised. *)
Theorem existing_path_reaches_model W f l :
  parse_args (unicode_digit W) (args W) = Namespace f l ->
  path_exists W f = true ->
  (forall f', stderr (output W) <> error_report (not_found_message f'))
  /\ In (WhisperLoadModel MODEL_SIZE) (calls (output W))
  /\ (forall m, load_model W MODEL_SIZE = Return m ->
        calls (output W) = calls_upto_transcribe f l)
  /\ (exit_status W <> ExitCode 0 ->
        exists e, stderr (output W) = error_report (error_message_of e)).
Proof.
  intros Hp He. run_with Hp. rewrite He.
  destruct (load_model W MODEL_SIZE) as [m|e].
  - destruct (transcribe m f USE_FP16 l) as [r|e];
      [destruct (getitem r (lit "text")) as [v|e];
        [destruct (json_dumps v) as [c|e]|]|];
      unfold failed; cbn [fst snd stdout stderr calls];
      (split; [intros f'; try apply reports_differ; discriminate|]);
      (split; [unfold calls_upto_transcribe; simpl; auto|]);
      (split; [reflexivity|]).
    + intros H. now elim H.
    + intros _. now exists e.
    + intros _. now exists e.
    + intros _. now exists e.
  - unfold failed. cbn [fst snd stdout stderr calls].
    split; [intros f'; apply reports_differ|].
    split; [simpl; auto|]. split; [discriminate|].
    intros _. now exists e.
Qed.

Lemma existing_path_reaches_model_sample :
  (forall f', stderr (output (Sample.world [lit "recordings"]))
              <> error_report (not_found_message f'))
  /\ In (WhisperLoadModel MODEL_SIZE) (calls (output (Sample.world [lit "recordings"])))
  /\ (forall m, load_model (Sample.world [lit "recordings"]) MODEL_SIZE = Return m ->
        calls (output (Sample.world [lit "recordings"]))
        = calls_upto_transcribe (lit "recordings") PyNone)
  /\ (exit_status (Sample.world [lit "recordings"]) <> ExitCode 0 ->
        exists e, stderr (output (Sample.world [lit "recordings"]))
                  = error_report (error_message_of e)).
Proof.
  apply (existing_path_reaches_model (Sample.world [lit "recordings"])
           (lit "recordings") PyNone);
    [reflexivity | reflexivity].
Defined.

(** * Further properties of the script *)

(** ** One stream per run *)

Lemma report_not_empty (text : pystr) : text ++ [10] <> [].
Proof. destruct text; discriminate. Qed.

(** X1: every run writes to exactly one of the two streams: to stdout and
    not to stderr when it ends with exit code 0, to stderr and not to stdout
    when it ends with any other code. *)
Theorem one_stream_written W :
  (exit_status W = ExitCode 0
   /\ stdout (output W) <> [] /\ stderr (output W) = [])
  \/ (exit_status W <> ExitCode 0
      /\ stdout (output W) = [] /\ stderr (output W) <> []).
Proof.
  destruct (args W) as [|a rest] eqn:Ea.
  { right. unfold exit_status, output. rewrite (run_no_arguments W Ea).
    cbn [fst snd stdout stderr]. repeat split; discriminate. }
  assert (Hne : args W <> []) by (rewrite Ea; discriminate).
  destruct (parse_args (unicode_digit W) (args W)) as [f l| |e'] eqn:Hp.
  - unfold exit_status, output.
    rewrite (run_namespace _ _ _ Hp), transcribe_audio_run.
    assert (Hrep : forall m, error_report m <> [])
      by (intros m; apply report_not_empty).
    destruct (path_exists W f);
      [destruct (load_model W MODEL_SIZE) as [m|e1];
        [destruct (transcribe m f USE_FP16 l) as [r|e1];
          [destruct (getitem r (lit "text")) as [v|e1];
            [destruct (json_dumps v) as [c|e1]|]|]|]|];
      unfold failed; cbn [fst snd stdout stderr];
      try (right; repeat split; [discriminate | apply Hrep]).
    left. repeat split. apply report_not_empty.
  - left. unfold exit_status, output. rewrite (run_help W Hne Hp).
    cbn [fst snd stdout stderr]. repeat split. discriminate.
  - right. unfold exit_status, output. rewrite (run_usage_error W e' Hne Hp).
    cbn [fst snd stdout stderr]. repeat split; discriminate.
Qed.

(** ** Reports are single lines of ASCII *)

Lemma hex_value_printable a x : hex_value a = Some x -> printable a = true.
Proof.
  unfold hex_value, printable. intros H.
  destruct ((48 <=? a) && (a <=? 57)) eqn:E1.
  { apply andb_true_iff in E1 as [A B]. apply N.leb_le in A, B.
    apply andb_true_iff; split; apply N.leb_le; lia. }
  destruct ((97 <=? a) && (a <=? 102)) eqn:E2.
  { apply andb_true_iff in E2 as [A B]. apply N.leb_le in A, B.
    apply andb_true_iff; split; apply N.leb_le; lia. }
  destruct ((65 <=? a) && (a <=? 70)) eqn:E3; [|discriminate].
  apply andb_true_iff in E3 as [A B]. apply N.leb_le in A, B.
  apply andb_true_iff; split; apply N.leb_le; lia.
Qed.

Lemma format_04x_printable u :
  u < 0x10000 -> forallb printable (format_04x u) = true.
Proof.
  intros Hu. pose proof (hex_ok_all u Hu) as H. unfold hex_ok in H.
  destruct (format_04x u) as [|a [|b [|c [|d [|? ?]]]]]; try discriminate.
  destruct (hex_value a) eqn:Ha, (hex_value b) eqn:Hb,
           (hex_value c) eqn:Hc, (hex_value d) eqn:Hd; try discriminate.
  cbn [forallb].
  now rewrite (hex_value_printable _ _ Ha), (hex_value_printable _ _ Hb),
              (hex_value_printable _ _ Hc), (hex_value_printable _ _ Hd).
Qed.

Lemma unicode_escape_printable u :
  u < 0x10000 -> forallb printable (lit "\u" ++ format_04x u) = true.
Proof.
  intros Hu. rewrite forallb_app, (format_04x_printable u Hu). reflexivity.
Qed.

Lemma escape_char_printable c : forallb printable (escape_char c) = true.
Proof.
  unfold escape_char. destruct (ESCAPE_ASCII c) eqn:E.
  - unfold replace. destruct (ESCAPE_DCT c) as [esc|] eqn:D.
    + unfold ESCAPE_DCT in D.
      repeat match type of D with
      | (if c =? ?k then _ else _) = _ =>
          destruct (c =? k); [injection D as <-; reflexivity|]
      end.
      destruct (N.ltb_spec c 32) as [H|H]; [|discriminate].
      injection D as <-. apply unicode_escape_printable. lia.
    + destruct (N.ltb_spec c 0x10000) as [H|H].
      * now apply unicode_escape_printable.
      * fold (high_unit (c - 0x10000)). fold (low_unit (c - 0x10000)).
        destruct (high_unit_range (c - 0x10000)), (low_unit_range (c - 0x10000)).
        rewrite (app_assoc (lit "\u")), forallb_app.
        rewrite !unicode_escape_printable by lia. reflexivity.
  - unfold ESCAPE_ASCII in E.
    apply orb_false_iff in E as [E1 E]. apply negb_false_iff in E.
    cbn [forallb]. unfold printable. now rewrite E.
Qed.

Lemma encode_printable s :
  forallb printable (encode_basestring_ascii s) = true.
Proof.
  unfold encode_basestring_ascii. cbn [forallb].
  rewrite forallb_app. cbn [forallb].
  change (printable QUOTE) with true. cbn [andb]. rewrite andb_true_r.
  induction s as [|c s IH]; [reflexivity|].
  cbn [flat_map]. now rewrite forallb_app, escape_char_printable, IH.
Qed.

Lemma join_printable sep cs :
  forallb printable sep = true ->
  Forall (fun c => forallb printable c = true) cs ->
  forallb printable (join sep cs) = true.
Proof.
  intros Hsep. induction 1 as [|c cs Hc Hcs IH]; [reflexivity|].
  destruct cs as [|c' cs']; [exact Hc|].
  change (join sep (c :: c' :: cs')) with (c ++ sep ++ join sep (c' :: cs')).
  now rewrite !forallb_app, Hc, Hsep, IH.
Qed.

(** [json.dumps] writes printable ASCII only. *)
Lemma json_dumps_printable o :
  forall text, json_dumps o = Return text -> forallb printable text = true.
Proof.
  induction o as [|s|items IH|entries IH|c] using pyvalue_nested_ind;
    intros text Hd.
  - now injection Hd as <-.
  - injection Hd as <-. apply encode_printable.
  - rewrite json_dumps_list in Hd.
    destruct (dumps_items items) as [cs|] eqn:Ecs; [|discriminate].
    injection Hd as <-.
    assert (Hall : Forall (fun c => forallb printable c = true) cs).
    { clear - IH Ecs. revert cs Ecs.
      induction IH as [|x xs Hx _ IHxs]; intros cs Ecs; cbn [dumps_items] in Ecs.
      - injection Ecs as <-. constructor.
      - destruct (json_dumps x) as [c|] eqn:Ex; [|discriminate].
        destruct (dumps_items xs) as [cs'|]; [|discriminate].
        injection Ecs as <-. constructor; [now apply Hx | now apply IHxs]. }
    cbn [forallb app]. rewrite forallb_app.
    rewrite join_printable by (reflexivity || assumption).
    reflexivity.
  - rewrite json_dumps_dict in Hd.
    destruct (dumps_entries entries) as [cs|] eqn:Ecs; [|discriminate].
    injection Hd as <-.
    assert (Hall : Forall (fun c => forallb printable c = true) cs).
    { clear - IH Ecs. revert cs Ecs.
      induction IH as [|[k v] xs Hx _ IHxs]; intros cs Ecs;
        cbn [dumps_entries] in Ecs.
      - injection Ecs as <-. constructor.
      - cbn [snd] in Hx.
        destruct (json_dumps v) as [c|] eqn:Ev; [|discriminate].
        destruct (dumps_entries xs) as [cs'|]; [|discriminate].
        injection Ecs as <-. constructor; [|now apply IHxs].
        change (forallb printable
                  (encode_basestring_ascii k ++ lit ": " ++ c) = true).
        rewrite !forallb_app, encode_printable, (Hx _ eq_refl). reflexivity. }
    cbn [forallb app]. rewrite forallb_app.
    rewrite join_printable by (reflexivity || assumption).
    reflexivity.
  - discriminate.
Qed.

Lemma object1_printable k v c :
  json_dumps v = Return c -> forallb printable (object1 k c) = true.
Proof.
  intros H. apply (json_dumps_printable (PyDict [(k, v)])).
  now rewrite json_dumps_member, H.
Qed.

(** X2: on every run whose command line argparse accepts, what is written
    is one line: printable ASCII characters followed by a single newline,
    on one stream, whatever characters the path, the exception message or
    the transcription hold. *)
Theorem report_is_one_ascii_line W f l :
  parse_args (unicode_digit W) (args W) = Namespace f l ->
  exists line,
    forallb printable line = true
    /\ ((stdout (output W) = line ++ [10] /\ stderr (output W) = [])
        \/ (stdout (output W) = [] /\ stderr (output W) = line ++ [10])).
Proof.
  intros Hp. run_with Hp.
  assert (Hfail : forall message cs,
    exists line,
      forallb printable line = true
      /\ ((stdout (mkProcess [] (error_report message) cs) = line ++ [10]
           /\ stderr (mkProcess [] (error_report message) cs) = [])
          \/ (stdout (mkProcess [] (error_report message) cs) = []
              /\ stderr (mkProcess [] (error_report message) cs) = line ++ [10]))).
  { intros message cs.
    exists (object1 (lit "error") (encode_basestring_ascii message)).
    split; [now apply (object1_printable _ (PyStr message))|].
    right. split; reflexivity. }
  destruct (path_exists W f);
    [destruct (load_model W MODEL_SIZE) as [m|e1];
      [destruct (transcribe m f USE_FP16 l) as [r|e1];
        [destruct (getitem r (lit "text")) as [v|e1];
          [destruct (json_dumps v) as [c|e1] eqn:Hv|]|]|]|];
    unfold failed; cbn [fst snd]; try apply Hfail.
  exists (object1 (lit "transcription") c).
  split; [now apply (object1_printable _ v)|].
  left. split; reflexivity.
Qed.

Lemma report_is_one_ascii_line_sample :
  exists line,
    forallb printable line = true
    /\ ((stdout (output (Sample.world [lit "audio.wav"])) = line ++ [10]
         /\ stderr (output (Sample.world [lit "audio.wav"])) = [])
        \/ (stdout (output (Sample.world [lit "audio.wav"])) = []
            /\ stderr (output (Sample.world [lit "audio.wav"])) = line ++ [10])).
Proof.
  apply (report_is_one_ascii_line (Sample.world [lit "audio.wav"])
           (lit "audio.wav") PyNone).
  reflexivity.
Defined.

(** ** What a consumer reads back *)

Lemma utf16_text_no_high s : Forall no_high_surrogate s -> utf16_text s = s.
Proof.
  unfold utf16_text, utf16_units.
  induction 1 as [|c s Hc _ IH]; [reflexivity|].
  cbn [flat_map]. destruct (N.ltb_spec c 0x10000) as [H|H]; cbn [app].
  - rewrite utf16_join_single, IH; [reflexivity|].
    unfold is_high_surrogate. destruct Hc as [Hc|[Hc _]].
    + apply andb_false_iff; left; apply N.leb_gt; lia.
    + apply andb_false_iff; right; apply N.leb_gt; lia.
  - cbn [utf16_join]. rewrite high_unit_is_high, low_unit_is_low.
    rewrite join_units, IH.
    + f_equal. lia.
    + destruct Hc as [Hc|[_ Hc]]; lia.
Qed.

Ltac ascii_no_high :=
  repeat (constructor; [left; reflexivity|]).

(** X3: the report of a missing file gives the path back exactly: a JSON
    reader finds under "error" the message followed by the path as it was
    given, also when the path holds bytes that did not decode (low
    surrogates). *)
Theorem missing_path_read_back W f l :
  parse_args (unicode_digit W) (args W) = Namespace f l ->
  path_exists W f = false ->
  Forall no_high_surrogate f ->
  json_loads (stderr (output W))
  = Some (JObject [(lit "error",
                    JString (lit "Archivo de audio no encontrado: " ++ f))]).
Proof.
  intros Hp He Hf. run_with Hp. rewrite He. cbn [snd stderr].
  rewrite error_report_loads, utf16_text_no_high; [reflexivity|].
  unfold not_found_message. apply Forall_app. split; [|exact Hf].
  cbn [lit map list_ascii_of_string]. ascii_no_high. constructor.
Qed.

Lemma missing_path_read_back_sample :
  json_loads (stderr (output (Sample.world [undecodable_name])))
  = Some (JObject [(lit "error",
                    JString (lit "Archivo de audio no encontrado: "
                               ++ undecodable_name))]).
Proof.
  apply (missing_path_read_back (Sample.world [undecodable_name])
           undecodable_name PyNone);
    [reflexivity | reflexivity |].
  unfold undecodable_name. cbn [lit map list_ascii_of_string app].
  ascii_no_high.
  constructor; [right; split; [intros H; discriminate H | reflexivity]|].
  ascii_no_high. constructor.
Defined.

Lemma json_of_plain o : unicode_value o -> json_of o = json_plain o.
Proof.
  induction o as [|s|items IH|entries IH|c] using pyvalue_nested_ind;
    cbn [unicode_value json_of json_plain]; intros Hu.
  - reflexivity.
  - now rewrite utf16_text_unicode.
  - f_equal. induction IH as [|x xs Hx _ IHxs]; [reflexivity|].
    cbn [fold_right map] in Hu |- *. destruct Hu as [Hu1 Hu2].
    now rewrite Hx, IHxs.
  - f_equal. induction IH as [|[k v] xs Hx _ IHxs]; [reflexivity|].
    cbn [fold_right map fst snd] in Hu, Hx |- *. destruct Hu as (Hk & Hv & Hu).
    now rewrite utf16_text_unicode, Hx, IHxs.
  - reflexivity.
Qed.

(** X4: what [json.dumps] writes for a value made of [None], strings,
    lists and dicts with string keys reads back as the value written: when
    the strings and keys are Unicode text, a JSON reader returns the same
    structure, with the same keys in the same order and the same strings. *)
Theorem json_round_trip o text :
  json_dumps o = Return text ->
  unicode_value o ->
  json_loads text = Some (json_plain o).
Proof.
  intros Hd Hu. rewrite <- (app_nil_r text).
  rewrite (json_loads_dumps o text [] Hd eq_refl).
  now rewrite json_of_plain.
Qed.

Lemma json_round_trip_sample :
  json_loads
    (lit "{" ++ [34] ++ lit "transcription" ++ [34] ++ lit ": " ++ [34]
       ++ lit " Hola, se\u00f1or \ud83d\ude00" ++ [34] ++ lit "}")
  = Some (JObject [(lit "transcription", JString Sample.hola)]).
Proof.
  apply (json_round_trip (PyDict [(lit "transcription", PyStr Sample.hola)])).
  - reflexivity.
  - cbn [unicode_value fold_right fst snd]. repeat split; unicode.
Defined.

(** ** The output step does not ask for a string *)

(** X5: the script does not check that the "text" entry of the result is
    a string: [None], a list or a dict of strings (any value of the
    fragment that [json.dumps] encodes) is printed under "transcription"
    with exit code 0, for instance [None] as [null]. *)
Theorem serializable_text_printed W f l m r v c :
  parse_args (unicode_digit W) (args W) = Namespace f l ->
  path_exists W f = true ->
  load_model W MODEL_SIZE = Return m ->
  transcribe m f USE_FP16 l = Return r ->
  dict_get r (lit "text") = Some v ->
  json_dumps v = Return c ->
  exit_status W = ExitCode 0
  /\ stdout (output W) = object1 (lit "transcription") c ++ [10]
  /\ json_loads (stdout (output W))
     = Some (JObject [(lit "transcription", json_of v)])
  /\ stderr (output W) = [].
Proof.
  intros Hp He Hm Ht Hr Hv. run_with Hp.
  unfold getitem. rewrite He, Hm, Ht, Hr, Hv. cbn [fst snd stdout stderr].
  rewrite (object1_loads (lit "transcription") v c Hv). auto.
Qed.

Lemma serializable_text_printed_sample :
  exit_status (silent_world [lit "audio.wav"]) = ExitCode 0
  /\ stdout (output (silent_world [lit "audio.wav"]))
     = object1 (lit "transcription") (lit "null") ++ [10]
  /\ json_loads (stdout (output (silent_world [lit "audio.wav"])))
     = Some (JObject [(lit "transcription", json_of PyNone)])
  /\ stderr (output (silent_world [lit "audio.wav"])) = [].
Proof.
  apply (serializable_text_printed (silent_world [lit "audio.wav"])
           (lit "audio.wav") PyNone silent_model
           [(lit "text", PyNone); (lit "language", PyStr (lit "en"))] PyNone);
    reflexivity.
Defined.

(** ** The command line *)

Lemma classify_plain nd rest :
  Forall plain rest -> classify nd rest = inr (map TokA rest).
Proof.
  induction 1 as [|a rest Ha _ IH]; [reflexivity|].
  cbn [classify map].
  now rewrite (not_dashes a Ha), (parse_optional_plain nd a Ha), IH.
Qed.

Lemma parse_optional_short nd :
  parse_optional nd (lit "-l") = Optional (Some StoreLanguage) (lit "-l") None.
Proof. reflexivity. Qed.

Lemma parse_optional_long nd :
  parse_optional nd (lit "--language")
  = Optional (Some StoreLanguage) (lit "--language") None.
Proof. reflexivity. Qed.

Lemma parse_optional_equals nd code :
  parse_optional nd (lit "--language=" ++ code)
  = Optional (Some StoreLanguage) (lit "--language") (Some code).
Proof. reflexivity. Qed.

Lemma plain_value code : plain code -> get_value code = PyStr code.
Proof. intros H. unfold get_value. now rewrite (not_dashes code H). Qed.

(** X6: the language flag is accepted in its short and its long form,
    before or after the audio file: the four command lines give the same
    namespace, with the code as it was typed. *)
Theorem language_flag_forms nd f code :
  plain f -> plain code ->
  parse_args nd [f; lit "-l"; code] = Namespace f (PyStr code)
  /\ parse_args nd [lit "-l"; code; f] = Namespace f (PyStr code)
  /\ parse_args nd [f; lit "--language"; code] = Namespace f (PyStr code)
  /\ parse_args nd [lit "--language"; code; f] = Namespace f (PyStr code).
Proof.
  intros Hf Hc. unfold parse_args. cbn [classify].
  rewrite (not_dashes f Hf), (parse_optional_plain nd f Hf).
  rewrite (not_dashes code Hc), (parse_optional_plain nd code Hc).
  change (pystr_eqb (lit "-l") (lit "--")) with false.
  change (pystr_eqb (lit "--language") (lit "--")) with false.
  rewrite parse_optional_short, parse_optional_long.
  cbn [map consume existsb is_option orb negb consume_rest finish app
       token_string].
  now rewrite (plain_value code Hc).
Qed.

Lemma language_flag_forms_sample :
  parse_args (fun _ => false) [lit "audio.wav"; lit "-l"; lit "es"]
  = Namespace (lit "audio.wav") (PyStr (lit "es"))
  /\ parse_args (fun _ => false) [lit "-l"; lit "es"; lit "audio.wav"]
     = Namespace (lit "audio.wav") (PyStr (lit "es"))
  /\ parse_args (fun _ => false) [lit "audio.wav"; lit "--language"; lit "es"]
     = Namespace (lit "audio.wav") (PyStr (lit "es"))
  /\ parse_args (fun _ => false) [lit "--language"; lit "es"; lit "audio.wav"]
     = Namespace (lit "audio.wav") (PyStr (lit "es")).
Proof.
  apply (language_flag_forms (fun _ => false) (lit "audio.wav") (lit "es"));
    reflexivity.
Defined.

(** X7: with [--language=CODE] any string at all is accepted as the code,
    without validation; it reaches the namespace unchanged, except for the
    two dashes [--], which argparse drops and stores as an empty list. *)
Theorem language_by_equals nd f code :
  plain f ->
  parse_args nd [f; lit "--language=" ++ code]
  = Namespace f (if pystr_eqb code (lit "--") then PyList [] else PyStr code).
Proof.
  intros Hf. unfold parse_args. cbn [classify].
  rewrite (not_dashes f Hf), (parse_optional_plain nd f Hf).
  change (pystr_eqb (lit "--language=" ++ code) (lit "--")) with false.
  rewrite parse_optional_equals. reflexivity.
Qed.

Lemma language_by_equals_sample :
  parse_args (fun _ => false) [lit "audio.wav"; lit "--language=" ++ lit "-x y"]
  = Namespace (lit "audio.wav")
      (if pystr_eqb (lit "-x y") (lit "--") then PyList [] else PyStr (lit "-x y")).
Proof.
  apply (language_by_equals (fun _ => false) (lit "audio.wav") (lit "-x y")).
  reflexivity.
Defined.

(** X8: a second file name is not transcribed and not ignored: argparse
    rejects the command line, the run ends with exit code 2 and the
    "unrecognized arguments" message on stderr, and neither the file
    system nor the model is touched. *)
Theorem second_file_rejected W f g :
  args W = [f; g] -> plain f -> plain g ->
  exit_status W = ExitCode 2
  /\ stderr (output W)
     = format_usage W ++ prog W
         ++ lit ": error: unrecognized arguments: " ++ g ++ [10]
  /\ stdout (output W) = []
  /\ calls (output W) = [].
Proof.
  intros Ha Hf Hg.
  assert (Hp : parse_args (unicode_digit W) (args W)
               = ErrorExit (UnrecognizedArguments [g])).
  { rewrite Ha. unfold parse_args. cbn [classify].
    rewrite (not_dashes f Hf), (parse_optional_plain _ f Hf).
    rewrite (not_dashes g Hg), (parse_optional_plain _ g Hg). reflexivity. }
  assert (Hne : args W <> []) by (rewrite Ha; discriminate).
  unfold exit_status, output. rewrite (run_usage_error W _ Hne Hp).
  cbn [fst snd stdout stderr calls error_message join].
  repeat split.
Qed.

Lemma second_file_rejected_sample :
  exit_status (Sample.world [lit "audio.wav"; lit "other.wav"]) = ExitCode 2
  /\ stderr (output (Sample.world [lit "audio.wav"; lit "other.wav"]))
     = format_usage (Sample.world [lit "audio.wav"; lit "other.wav"])
         ++ prog (Sample.world [lit "audio.wav"; lit "other.wav"])
         ++ lit ": error: unrecognized arguments: " ++ lit "other.wav" ++ [10]
  /\ stdout (output (Sample.world [lit "audio.wav"; lit "other.wav"])) = []
  /\ calls (output (Sample.world [lit "audio.wav"; lit "other.wav"])) = [].
Proof.
  apply (second_file_rejected (Sample.world [lit "audio.wav"; lit "other.wav"])
           (lit "audio.wav") (lit "other.wav"));
    reflexivity.
Defined.

(** X9: the word after [-l] is the language, never the audio file: with
    [-l WORD] alone argparse finds no audio file, and the run ends with
    exit code 2 and the "required" message, without a look at the file
    system. *)
Theorem flag_takes_the_word W word :
  args W = [lit "-l"; word] -> plain word ->
  exit_status W = ExitCode 2
  /\ stderr (output W)
     = format_usage W ++ prog W
         ++ lit ": error: the following arguments are required: audio_file"
         ++ [10]
  /\ stdout (output W) = []
  /\ calls (output W) = [].
Proof.
  intros Ha Hw.
  assert (Hp : parse_args (unicode_digit W) (args W) = ErrorExit RequiredArgument).
  { rewrite Ha. unfold parse_args. cbn [classify].
    change (pystr_eqb (lit "-l") (lit "--")) with false.
    rewrite parse_optional_short.
    rewrite (not_dashes word Hw), (parse_optional_plain _ word Hw). reflexivity. }
  assert (Hne : args W <> []) by (rewrite Ha; discriminate).
  unfold exit_status, output. rewrite (run_usage_error W _ Hne Hp).
  cbn [fst snd stdout stderr calls error_message].
  repeat split.
Qed.

Lemma flag_takes_the_word_sample :
  exit_status (Sample.world [lit "-l"; lit "audio.wav"]) = ExitCode 2
  /\ stderr (output (Sample.world [lit "-l"; lit "audio.wav"]))
     = format_usage (Sample.world [lit "-l"; lit "audio.wav"])
         ++ prog (Sample.world [lit "-l"; lit "audio.wav"])
         ++ lit ": error: the following arguments are required: audio_file"
         ++ [10]
  /\ stdout (output (Sample.world [lit "-l"; lit "audio.wav"])) = []
  /\ calls (output (Sample.world [lit "-l"; lit "audio.wav"])) = [].
Proof.
  apply (flag_takes_the_word (Sample.world [lit "-l"; lit "audio.wav"])
           (lit "audio.wav"));
    reflexivity.
Defined.

(** X10: a help flag in front wins over everything after it: with [-h] or
    [--help] first and plain words behind, the help goes to stdout, the
    exit code is 0, and the file is neither checked nor transcribed. *)
Theorem help_flag_first W flag rest :
  args W = flag :: rest ->
  flag = lit "-h" \/ flag = lit "--help" ->
  Forall plain rest ->
  exit_status W = ExitCode 0
  /\ stdout (output W) = format_help W
  /\ stderr (output W) = []
  /\ calls (output W) = [].
Proof.
  intros Ha Hflag Hrest.
  assert (Hp : parse_args (unicode_digit W) (args W) = HelpExit).
  { rewrite Ha. unfold parse_args.
    destruct Hflag as [-> | ->]; cbn [classify].
    - change (pystr_eqb (lit "-h") (lit "--")) with false.
      change (parse_optional (unicode_digit W) (lit "-h"))
        with (Optional (Some HelpAction) (lit "-h") None).
      rewrite (classify_plain _ rest Hrest). reflexivity.
    - change (pystr_eqb (lit "--help") (lit "--")) with false.
      change (parse_optional (unicode_digit W) (lit "--help"))
        with (Optional (Some HelpAction) (lit "--help") None).
      rewrite (classify_plain _ rest Hrest). reflexivity. }
  assert (Hne : args W <> []) by (rewrite Ha; discriminate).
  unfold exit_status, output. rewrite (run_help W Hne Hp).
  cbn [fst snd stdout stderr calls]. auto.
Qed.

Lemma help_flag_first_sample :
  exit_status (Sample.world [lit "--help"; lit "audio.wav"]) = ExitCode 0
  /\ stdout (output (Sample.world [lit "--help"; lit "audio.wav"]))
     = format_help (Sample.world [lit "--help"; lit "audio.wav"])
  /\ stderr (output (Sample.world [lit "--help"; lit "audio.wav"])) = []
  /\ calls (output (Sample.world [lit "--help"; lit "audio.wav"])) = [].
Proof.
  apply (help_flag_first (Sample.world [lit "--help"; lit "audio.wav"])
           (lit "--help") [lit "audio.wav"]).
  - reflexivity.
  - now right.
  - repeat constructor.
Defined.

(** X11: after a separator [--] the next word is the audio file whatever
    it looks like, a leading dash included; no language is set. *)
Theorem file_after_separator nd f :
  parse_args nd [lit "--"; f] = Namespace f PyNone.
Proof. reflexivity. Qed.
